(** * VolunChain backend: rate-limit and authentication middleware

    A shallow embedding of the two Express middleware files of the
    repository,

    - [RateLimitMiddleware.rateLimiter], [applyToRoutes],
      [setupRateLimiting]   (rate-limit middleware),
    - [authMiddleware], [requireVerifiedEmail]   (auth middleware),

    and of the /health handler and the start-up chain of the entry point,
    as programs of a small state-and-exception monad.  The monad threads
    the part of the Express world the handlers touch: the response object,
    the [user] field the handlers attach to the request, and a
    chronological log of every effect (collaborator calls, log lines,
    response operations, calls of [next]). *)

From Stdlib Require Import Ascii String ZArith SpecFloat.
From stdpp Require Import base strings list gmap pretty.

Open Scope Z_scope.
Open Scope string_scope.
Open Scope list_scope.

#[local] Set Warnings "-register-all".

(** ** JavaScript values the handlers exchange *)

(** What a [catch (error)] clause can receive: an [Error] instance with
    its [message] and [stack], or any other thrown value. *)
Inductive Thrown : Type :=
| ErrorObj (message : string) (stack : option string)
| NonError (value : string).

(** Object literals passed to [res.json] and to the logger.  Fields are
    kept in the order the literal lists them. *)
Inductive Json : Type :=
| JUndefined
| JBool (b : bool)
| JNum (n : Z)
| JNumber (x : spec_float)
| JStr (s : string)
| JObj (fields : list (string * Json)).

(** [n.toString()] and [`${n}`] for the integers the handlers print: the
    remaining count and differences of [Date.now()] readings. *)
Definition toString (n : Z) : string := pretty n.

(** ** JavaScript numbers *)

Section Numbers.
#[local] Open Scope Z_scope.

(** JavaScript numbers are IEEE 754 binary64 values; [spec_float] with
    precision 53 and exponent bound 1024 is the Standard Library's
    specification of that format. *)

(** The Number value of an integer (exact up to 2^53, rounded to nearest,
    ties to even, beyond). *)
Definition numberOfZ (n : Z) : spec_float := binary_normalize 53 1024 n 0 false.

(** [x * y] *)
Definition times (x y : spec_float) : spec_float := SFmul 53 1024 x y.

(** [x / y] *)
Definition dividedBy (x y : spec_float) : spec_float := SFdiv 53 1024 x y.

(** The integer a number is, when it is one and [Number.isSafeInteger]
    holds of it. *)
Definition toSafeInteger (x : spec_float) : option Z :=
  match x with
  | S754_zero _ => Some 0
  | S754_finite s m e =>
      let magnitude :=
        if 0 <=? e then Some (Z.pos m * 2 ^ e)
        else if Z.pos m mod 2 ^ (- e) =? 0 then Some (Z.pos m / 2 ^ (- e))
        else None in
      match magnitude with
      | Some v => if v <=? 2 ^ 53 - 1 then Some (if s then - v else v) else None
      | None => None
      end
  | _ => None
  end.

(** Shortest round-trip digits (ECMAScript Number::toString, step 5) of the
    positive double [m * 2^e] in canonical form: integers [s], [n] with
    [k] digits in [s], [k] as small as possible, such that [s * 10^(n-k)]
    rounds to the double, and closest to it among those. *)
Section Digits.
Variables (m : positive) (e : Z).

(** In units of [2^(e-2)]: the double, and the ends of the interval of
    reals that round to it. *)
Definition numX : Z := 4 * Z.pos m.
Definition numL : Z :=
  if (Z.pos m =? 2 ^ 52) && (-1074 <? e) then 4 * Z.pos m - 1
  else 4 * Z.pos m - 2.
Definition numU : Z := 4 * Z.pos m + 2.

(** [num * 2^(e-2)] against [s * 10^p], cleared of denominators. *)
Definition lhs (p num : Z) : Z :=
  num * 2 ^ Z.max (e - 2) 0 * 10 ^ Z.max (- p) 0.
Definition rhs (p s : Z) : Z :=
  s * 2 ^ Z.max (- (e - 2)) 0 * 10 ^ Z.max p 0.

Definition roundsBack (p s : Z) : bool :=
  if Z.even (Z.pos m)
  then (lhs p numL <=? rhs p s) && (rhs p s <=? lhs p numU)
  else (lhs p numL <? rhs p s) && (rhs p s <? lhs p numU).

(** The least [n] from [n0] on with [x < 10^n]. *)
Fixpoint magnitudeFrom (fuel : nat) (n : Z) : Z :=
  match fuel with
  | O => n
  | S fuel' => if lhs n numX <? rhs n 1 then n else magnitudeFrom fuel' (n + 1)
  end.

(** The [n] with [10^(n-1) <= x < 10^n]; the search starts two below an
    estimate of [log10 x] from the bit length of [x]. *)
Definition magnitude : Z :=
  magnitudeFrom 12 ((Z.pos (digits2_pos m) + e - 1) * 30103 / 100000 - 2).

(** The candidate with [k] digits, if one rounds back. *)
Definition candidate (n k : Z) : option Z :=
  let p := n - k in
  let lo := lhs p numX / rhs p 1 in
  let hi := lo + 1 in
  let dlo := lhs p numX - rhs p lo in
  let dhi := rhs p hi - lhs p numX in
  match roundsBack p lo, roundsBack p hi with
  | true, true =>
      if dlo <? dhi then Some lo
      else if dhi <? dlo then Some hi
      else if Z.even lo then Some lo else Some hi
  | true, false => Some lo
  | false, true => Some hi
  | false, false => None
  end.

Fixpoint shortestFrom (fuel : nat) (n k : Z) : Z * Z * Z :=
  match fuel with
  | O => (lhs (n - k) numX / rhs (n - k) 1, n, k)
  | S fuel' =>
      match candidate n k with
      | Some s => if s =? 10 ^ k then (10 ^ (k - 1), n + 1, k) else (s, n, k)
      | None => shortestFrom fuel' n (k + 1)
      end
  end.

(** [(s, n, k)] *)
Definition shortest : Z * Z * Z := shortestFrom 17 magnitude 1.

End Digits.

Definition zeros (n : Z) : string :=
  Z.iter n (λ s, String "0" s) EmptyString.

(** ECMAScript Number::toString, steps 6 to 10: lay out the digits. *)
Definition layout (s n k : Z) : string :=
  let digits := pretty s in
  if (k <=? n) && (n <=? 21) then digits +:+ zeros (n - k)
  else if (0 <? n) && (n <=? 21) then
    substring 0 (Z.to_nat n) digits +:+ "."
      +:+ substring (Z.to_nat n) (Z.to_nat (k - n)) digits
  else if (-6 <? n) && (n <=? 0) then "0." +:+ zeros (- n) +:+ digits
  else
    let exponent := (if n - 1 <? 0 then "-" else "+") +:+ pretty (Z.abs (n - 1)) in
    if k =? 1 then digits +:+ "e" +:+ exponent
    else substring 0 1 digits +:+ "." +:+ substring 1 (Z.to_nat (k - 1)) digits
           +:+ "e" +:+ exponent.

(** The string a number coerces to, as in [x + " seconds"]. *)
Definition numberToString (x : spec_float) : string :=
  match x with
  | S754_nan => "NaN"
  | S754_zero _ => "0"
  | S754_infinity s => if s then "-Infinity" else "Infinity"
  | S754_finite sign m e =>
      match toSafeInteger x with
      | Some n => pretty n
      | None =>
          (if sign then "-" else "") +:+
          match binary_round 53 1024 false m e with
          | S754_finite _ m' e' =>
              let '(s, n, k) := shortest m' e' in layout s n k
          | S754_zero _ => "0"
          | _ => "Infinity"
          end
      end
  end.

(** A decimal integer as text: digits, with an optional minus sign. *)
Definition isDigit (c : ascii) : bool :=
  (48 <=? Z.of_nat (nat_of_ascii c)) && (Z.of_nat (nat_of_ascii c) <=? 57).

Fixpoint allDigits (s : string) : bool :=
  match s with
  | EmptyString => true
  | String c s' => isDigit c && allDigits s'
  end.

Definition isIntegerText (s : string) : bool :=
  match s with
  | EmptyString => false
  | String "-" (String c t) => allDigits (String c t)
  | String c t => allDigits (String c t)
  end.

End Numbers.

(** JavaScript truthiness of a [string | undefined]. *)
Definition truthy (s : option string) : bool :=
  match s with
  | Some (String _ _) => true
  | _ => false
  end.

(** [`${v}`] for a [string | undefined]. *)
Definition template (s : option string) : string :=
  match s with
  | Some v => v
  | None => "undefined"
  end.

(** [JSON] view of a [string | undefined]. *)
Definition optStr (s : option string) : Json :=
  match s with
  | Some v => JStr v
  | None => JUndefined
  end.

(** [s.split(sep)] for a one-character separator: the list of segments,
    never empty ([[""]] for the empty string). *)
Fixpoint split (sep : ascii) (s : string) : list string :=
  match s with
  | EmptyString => [EmptyString]
  | String c s' =>
      if Ascii.eqb c sep then EmptyString :: split sep s'
      else match split sep s' with
           | seg :: rest => String c seg :: rest
           | [] => [String c EmptyString]
           end
  end.

(** ** Requests, responses, users *)

(** The fields of the Express request the handlers read. *)
Record Request : Type := mkRequest {
  authorization : option string;   (* req.headers.authorization *)
  ip : option string;              (* req.ip *)
  path : string;                   (* req.path *)
  method : string;                 (* req.method *)
  traceId : option string          (* req.traceId *)
}.

(** The response object: status code, the headers set through
    [res.setHeader], and the body once [res.json] has sent it.  What
    Express adds of its own when it sends an answer (Content-Type,
    Content-Length, ETag) is not part of [headers]. *)
Record Response : Type := mkResponse {
  statusCode : Z;
  headers : gmap string string;
  body : option Json
}.

Definition freshResponse : Response :=
  {| statusCode := 200; headers := ∅; body := None |}.

(** What [rateLimitUseCase.checkRateLimit] resolves to; the middleware
    destructures exactly these three fields.  [remaining] is a count;
    [retryAfter] is a delay in minutes and may be any number. *)
Record RateLimitDecision : Type := mkDecision {
  allowed : bool;
  remaining : Z;
  retryAfter : spec_float
}.

(** The payload [jwt.verify] is cast to. *)
Record DecodedUser : Type := mkDecoded {
  decoded_id : string;
  decoded_role : string
}.

(** Modelled from the spec: the user record [PrismaUserRepository.findById]
    resolves to (the repository class is not part of the sources at hand).
    The handlers read [id], [email] and [isVerified]; the record's own
    [role] is the one the spec contrasts with the token's role claim. *)
Record UserRecord : Type := mkUser {
  user_id : string;
  user_email : string;
  user_role : string;
  user_isVerified : bool
}.

(** The object [authMiddleware] stores in [req.user]. *)
Record AuthenticatedUser : Type := mkAuthUser {
  id : string;
  email : string;
  role : string;
  isVerified : bool
}.

(** ** Effects *)

(** Every observable step of a handler, in program order. *)
Inductive Event : Type :=
| CheckRateLimit (req : Request)
| JwtVerify (token secret : string)
| FindById (uid : string)
| IsUserVerified (uid : string)
| ConsoleLog (args : list Json)
| ConsoleError (msg : string) (err : Thrown)
| LoggerWarn (msg : string) (meta : Json)
| LoggerError (msg : string) (meta : Json)
| SetHeader (name value : string)
| Status (code : Z)
| SendJson (payload : Json)
| Next (err : option Thrown).

Record World : Type := mkWorld {
  res : Response;
  req_user : option AuthenticatedUser;   (* (req as AuthenticatedRequest).user *)
  events : list Event
}.

Definition initialWorld (u : option AuthenticatedUser) : World :=
  {| res := freshResponse; req_user := u; events := [] |}.

Inductive Result (A : Type) : Type :=
| Ok (a : A)
| Throw (e : Thrown).
Arguments Ok {A} a.
Arguments Throw {A} e.

Definition M (A : Type) : Type := World → Result A * World.

Global Instance M_ret : MRet M := λ A a w, (Ok a, w).
Global Instance M_bind : MBind M := λ A B f m w,
  match m w with
  | (Ok a, w') => f a w'
  | (Throw e, w') => (Throw e, w')
  end.

(** [try { body } catch (error) { handler }] *)
Definition try_catch {A} (body : M A) (handler : Thrown → M A) : M A :=
  λ w, match body w with
       | (Ok a, w') => (Ok a, w')
       | (Throw e, w') => handler e w'
       end.

Definition emit (e : Event) : M unit :=
  λ w, (Ok tt, {| res := res w; req_user := req_user w;
                   events := events w ++ [e] |}).

(** An awaited collaborator call: logged, then resolved or rejected. *)
Definition await {A} (e : Event) (r : Thrown + A) : M A :=
  λ w, let w' := {| res := res w; req_user := req_user w;
                    events := events w ++ [e] |} in
       match r with
       | inr a => (Ok a, w')
       | inl err => (Throw err, w')
       end.

Definition modifyRes (f : Response → Response) : M unit :=
  λ w, (Ok tt, {| res := f (res w); req_user := req_user w;
                   events := events w |}).

Definition getUser : M (option AuthenticatedUser) :=
  λ w, (Ok (req_user w), w).

Definition setUser (u : AuthenticatedUser) : M unit :=
  λ w, (Ok tt, {| res := res w; req_user := Some u; events := events w |}).

(** [res.setHeader(name, value)] *)
Definition setHeader (name value : string) : M unit :=
  emit (SetHeader name value);;
  modifyRes (λ r, {| statusCode := statusCode r;
                     headers := <[name := value]> (headers r);
                     body := body r |}).

(** [res.status(code)] *)
Definition status (code : Z) : M unit :=
  emit (Status code);;
  modifyRes (λ r, {| statusCode := code; headers := headers r;
                     body := body r |}).

(** [res.json(payload)]: the payload handed to Express.  The headers
    Express derives from it while sending are outside the model. *)
Definition json (payload : Json) : M unit :=
  emit (SendJson payload);;
  modifyRes (λ r, {| statusCode := statusCode r; headers := headers r;
                     body := Some payload |}).

(** [next()] and [next(error)] *)
Definition next (err : option Thrown) : M unit := emit (Next err).

(** ** Collaborators *)

Class RateLimitUseCase : Type := {
  checkRateLimit : Request → Thrown + RateLimitDecision
}.

Class TokenVerifier : Type := {
  jwt_verify : string → string → Thrown + DecodedUser
}.

Class UserRepository : Type := {
  findById : string → Thrown + option UserRecord;
  isUserVerified : string → Thrown + bool
}.

(** ** Rate-limit middleware *)

(** [...(req.traceId && { traceId: req.traceId })] *)
Definition spreadTraceId (req : Request) : list (string * Json) :=
  if truthy (traceId req) then [("traceId", optStr (traceId req))] else [].

(** [error instanceof Error ? error.message : error] *)
Definition errorMessage (error : Thrown) : Json :=
  match error with
  | ErrorObj m _ => JStr m
  | NonError v => JStr v
  end.

(** [error instanceof Error ? error.stack : undefined] *)
Definition errorStack (error : Thrown) : Json :=
  match error with
  | ErrorObj _ st => optStr st
  | NonError _ => JUndefined
  end.

Definition tooManyRequestsBody (req : Request) (d : RateLimitDecision) : Json :=
  JObj ([("error", JStr "Too Many Requests");
         ("message",
          JStr "You have exceeded the rate limit. Please try again later.");
         ("retryAfter",
          JStr (numberToString (times (retryAfter d) (numberOfZ 60))
                  +:+ " seconds"))]
        ++ spreadTraceId req).

(** The allow/deny branch of [rateLimiter]: everything from
    [if (!allowed)] to the closing [next()]. *)
Definition allowOrDeny (req : Request) (d : RateLimitDecision) : M unit :=
  if negb (allowed d) then
    emit (LoggerWarn
            ("Rate limit exceeded for " +:+ template (ip req)
               +:+ " on " +:+ path req)
            (JObj [("remaining", JNum (remaining d));
                   ("retryAfter", JNumber (retryAfter d));
                   ("ip", optStr (ip req));
                   ("path", JStr (path req));
                   ("traceId", optStr (traceId req))]));;
    status 429;;
    json (tooManyRequestsBody req d)
  else
    next None.

Definition rateLimiter `{RateLimitUseCase} (req : Request) : M unit :=
  try_catch
    (d ← await (CheckRateLimit req) (checkRateLimit req);
     emit (ConsoleLog [JBool (allowed d); JNum (remaining d)]);;
     setHeader "X-RateLimit-Remaining" (toString (remaining d));;
     allowOrDeny req d)
    (λ error,
       emit (LoggerError "Rate limit check failed"
               (JObj [("error", errorMessage error);
                      ("stack", errorStack error);
                      ("path", JStr (path req));
                      ("method", JStr (method req));
                      ("ip", optStr (ip req));
                      ("traceId", optStr (traceId req))]));;
       next (Some error)).

(** ** Auth middleware *)

(** [process.env.JWT_SECRET || "defaultSecret"] *)
Definition SECRET_KEY (env_JWT_SECRET : option string) : string :=
  if truthy env_JWT_SECRET then template env_JWT_SECRET else "defaultSecret".

(** [req.headers.authorization?.split(" ")[1]] *)
Definition extractToken (req : Request) : option string :=
  match authorization req with
  | None => None
  | Some h => split " "%char h !! 1%nat
  end.

Definition messageBody (msg : string) : Json := JObj [("message", JStr msg)].

Definition authMiddleware `{TokenVerifier} `{UserRepository}
    (secret : string) (req : Request) : M unit :=
  match extractToken req with
  | None | Some EmptyString =>          (* if (!token) *)
      status 401;; json (messageBody "No token provided")
  | Some token =>
      try_catch
        (decoded ← await (JwtVerify token secret) (jwt_verify token secret);
         user ← await (FindById (decoded_id decoded))
                      (findById (decoded_id decoded));
         match user with
         | None => status 401;; json (messageBody "User not found")
         | Some user =>
             if negb (user_isVerified user) then
               status 403;;
               json (messageBody
                       "Email not verified. Please verify your email to proceed.")
             else
               setUser {| id := user_id user;
                          email := user_email user;
                          role := decoded_role decoded;
                          isVerified := user_isVerified user |};;
               next None
         end)
        (λ error, status 401;; json (messageBody "Invalid token"))
  end.

Definition requireVerifiedEmail `{UserRepository} (req : Request) : M unit :=
  try_catch
    (u ← getUser;
     match u with
     | None =>
         status 401;; json (messageBody "Unauthorized - Authentication required")
     | Some user =>
         verified ← await (IsUserVerified (id user)) (isUserVerified (id user));
         if negb verified then
           status 403;;
           json (JObj [("message",
                        JStr "Forbidden - Email verification required");
                       ("verificationNeeded", JBool true)])
         else
           setUser {| id := id user; email := email user; role := role user;
                      isVerified := true |};;
           next None
     end)
    (λ error,
       emit (ConsoleError "Error checking email verification status:" error);;
       status 500;;
       json (JObj ([("message", JStr "Internal server error")]
                   ++ spreadTraceId req))).

(** ** Observations on a run *)

(** The arguments of every [next] call so far, oldest first. *)
Definition nextCalls (w : World) : list (option Thrown) :=
  omap (λ e, match e with Next err => Some err | _ => None end) (events w).

(** The ids of every user-repository query so far, oldest first. *)
Definition lookupCalls (w : World) : list string :=
  omap (λ e, match e with
             | FindById uid | IsUserVerified uid => Some uid
             | _ => None
             end) (events w).

(** The events a run appended to the log. *)
Definition newEvents (before after : World) : list Event :=
  drop (length (events before)) (events after).

(** ** Terminal answers *)

(** The world after a handler, having performed the effects [pre], ends
    the request with [res.status(code).json(payload)]: headers and
    [req.user] are as before, and nothing follows the answer. *)
Definition responded (w : World) (pre : list Event) (code : Z) (payload : Json)
    : World :=
  {| res := {| statusCode := code; headers := headers (res w);
               body := Some payload |};
     req_user := req_user w;
     events := events w ++ pre ++ [Status code; SendJson payload] |}.

Definition isNext (e : Event) : bool :=
  match e with Next _ => true | _ => false end.

Definition isLookup (e : Event) : bool :=
  match e with FindById _ | IsUserVerified _ => true | _ => false end.

(** ** Token extraction, in words *)

(** The text of [s] before its first [sep] (all of [s] if there is none). *)
Fixpoint upTo (sep : ascii) (s : string) : string :=
  match s with
  | EmptyString => EmptyString
  | String c s' => if Ascii.eqb c sep then EmptyString else String c (upTo sep s')
  end.

(** The text of [s] after its first [sep], if [s] has one. *)
Fixpoint afterFirst (sep : ascii) (s : string) : option string :=
  match s with
  | EmptyString => None
  | String c s' => if Ascii.eqb c sep then Some s' else afterFirst sep s'
  end.

(** ** Fixed texts *)

Definition verificationMessage : string :=
  "Email not verified. Please verify your email to proceed.".

Definition verificationNeededBody : Json :=
  JObj [("message", JStr "Forbidden - Email verification required");
        ("verificationNeeded", JBool true)].

(** ** Concrete collaborators and requests *)

Module Scenario.

(** A verifier accepting the single token ["good"], which decodes to the
    claims [{id: "u1", role: "admin"}]. *)
Definition adminClaim : DecodedUser :=
  {| decoded_id := "u1"; decoded_role := "admin" |}.

Definition verifier : TokenVerifier :=
  {| jwt_verify := λ token _,
       if String.eqb token "good" then inr adminClaim
       else inl (ErrorObj "jwt malformed" None) |}.

(** The live record of u1: a volunteer. *)
Definition volunteer (verified : bool) : UserRecord :=
  {| user_id := "u1"; user_email := "u1@example.org";
     user_role := "volunteer"; user_isVerified := verified |}.

Definition repoWith (u : option UserRecord) (verified : bool) : UserRepository :=
  {| findById := λ _, inr u; isUserVerified := λ _, inr verified |}.

(** A repository whose database is unreachable. *)
Definition dbDown : Thrown := ErrorObj "Can't reach database server" None.

Definition repoDown : UserRepository :=
  {| findById := λ _, inl dbDown; isUserVerified := λ _, inl dbDown |}.

Definition engine (r : Thrown + RateLimitDecision) : RateLimitUseCase :=
  {| checkRateLimit := λ _, r |}.

Definition counterDown : Thrown := ErrorObj "Redis connection lost" None.

Definition request (auth : option string) : Request :=
  {| authorization := auth; ip := Some "203.0.113.7"; path := "/auth/login";
     method := "POST"; traceId := Some "trace-42" |}.

Definition cachedUser (verified : bool) : AuthenticatedUser :=
  {| id := "u1"; email := "u1@example.org"; role := "admin";
     isVerified := verified |}.

(** A denial whose retry delay is 8.2 minutes, the double [82 / 10]. *)
Definition deniedFor8_2 : RateLimitDecision :=
  {| allowed := false; remaining := 0;
     retryAfter := dividedBy (numberOfZ 82) (numberOfZ 10) |}.

(** A denial with a one-minute retry delay. *)
Definition denied : RateLimitDecision :=
  {| allowed := false; remaining := 0; retryAfter := numberOfZ 1 |}.

End Scenario.

(** ** How a handler run ends *)

(** The effects that end a handler's part in a request: an answer sent
    with [res.json], a plain [next()], or [next(error)]. *)
Inductive Ending : Type :=
| Answer (payload : Json)
| Continue
| Fail (err : Thrown).

Definition endingOf (e : Event) : option Ending :=
  match e with
  | SendJson payload => Some (Answer payload)
  | Next None => Some Continue
  | Next (Some err) => Some (Fail err)
  | _ => None
  end.

Definition endings (l : list Event) : list Ending := omap endingOf l.

(** The [res.setHeader(name, value)] calls among some events. *)
Definition setHeaderCalls (l : list Event) : list (string * string) :=
  omap (λ e, match e with SetHeader name value => Some (name, value) | _ => None end) l.

(** ** Routers and the rest of the rate-limit class *)

(** An Express router as the stack of layers [router.use(path, handler)]
    has pushed onto it, oldest first. *)
Definition use {H : Type} (router : list (string * H)) (route : string)
    (handler : H) : list (string * H) :=
  router ++ [(route, handler)].

(** [constructor(rateLimitUseCase?)]: the engine given, or else
    [new RateLimitUseCase()]. *)
Definition RateLimitMiddleware (rateLimitUseCase : option RateLimitUseCase)
    (newRateLimitUseCase : RateLimitUseCase) : RateLimitUseCase :=
  match rateLimitUseCase with
  | Some given => given
  | None => newRateLimitUseCase
  end.

(** [applyToRoutes(router, routes)]: [routes.forEach] pushing
    [this.rateLimiter] for each route, then the router is returned. *)
Definition applyToRoutes `{RateLimitUseCase}
    (router : list (string * (Request → M unit))) (routes : list string)
    : list (string * (Request → M unit)) :=
  fold_left (λ r route, use r route rateLimiter) routes router.

(** [setupRateLimiting(app)] *)
Definition setupRateLimiting (newRateLimitUseCase : RateLimitUseCase)
    (app : list (string * (Request → M unit)))
    : list (string * (Request → M unit)) :=
  let rateLimitMiddleware := RateLimitMiddleware None newRateLimitUseCase in
  let app := use app "/auth" (@rateLimiter rateLimitMiddleware) in
  let app := use app "/wallet" (@rateLimiter rateLimitMiddleware) in
  use app "/email" (@rateLimiter rateLimitMiddleware).

(** ** The application entry point: health check and start-up *)

(** [ServiceStatus] and [HealthStatus] as the /health handler declares
    them; [services] is the [Record<string, ServiceStatus>]. *)
Record ServiceStatus : Type := mkService {
  svc_status : string;
  svc_responseTime : option string;
  svc_metrics : option Json          (* metrics?.averageQueryTime *)
}.

Record HealthStatus : Type := mkHealth {
  hs_status : string;
  hs_responseTime : option string;
  hs_services : gmap string ServiceStatus
}.

(** The effects of the entry point, in program order. *)
Inductive IndexEvent : Type :=
| DateNow (reading : Z)
| QueryRaw
| GetAverageQueryTime
| RedisPing
| PrismaConnect
| RedisConnect
| InitCronJobs
| Listen (port : string)
| Log (msg : string)
| LogError (msg : string) (err : Thrown)
| Respond (code : Z) (payload : HealthStatus).

Record IndexWorld : Type := mkIndexWorld {
  health : HealthStatus;       (* the [healthStatus] object of the request *)
  reads : nat;                 (* how often [Date.now()] has been read *)
  trail : list IndexEvent
}.

Definition I (A : Type) : Type := IndexWorld → Result A * IndexWorld.

Global Instance I_ret : MRet I := λ A a w, (Ok a, w).
Global Instance I_bind : MBind I := λ A B f m w,
  match m w with
  | (Ok a, w') => f a w'
  | (Throw e, w') => (Throw e, w')
  end.

Definition try_catchI {A} (body : I A) (handler : Thrown → I A) : I A :=
  λ w, match body w with
       | (Ok a, w') => (Ok a, w')
       | (Throw e, w') => handler e w'
       end.

Definition note (e : IndexEvent) : I unit :=
  λ w, (Ok tt, {| health := health w; reads := reads w;
                   trail := trail w ++ [e] |}).

Definition awaitI {A} (e : IndexEvent) (r : Thrown + A) : I A :=
  λ w, let w' := {| health := health w; reads := reads w;
                    trail := trail w ++ [e] |} in
       match r with
       | inr a => (Ok a, w')
       | inl err => (Throw err, w')
       end.

Definition modifyHealth (f : HealthStatus → HealthStatus) : I unit :=
  λ w, (Ok tt, {| health := f (health w); reads := reads w;
                   trail := trail w |}).

Definition getHealth : I HealthStatus := λ w, (Ok (health w), w).

(** The clock, the database, the cache and the cron manager as the entry
    point meets them; [now k] is the k-th reading of [Date.now()]. *)
Class Services : Type := {
  now : nat → Z;
  queryRaw : Thrown + unit;               (* prisma.$queryRaw`SELECT 1` *)
  getAverageQueryTime : Thrown + Json;    (* dbMonitor.getAverageQueryTime() *)
  ping : Thrown + string;                 (* redisClient.ping() *)
  prismaConnect : Thrown + unit;          (* prisma.$connect() *)
  redisConnect : Thrown + unit;           (* redisClient.connect() *)
  initCronJobs : Thrown + unit;           (* cronManager.initCronJobs() *)
  listen : Thrown + unit                  (* app.listen(PORT, ...) *)
}.

(** [Date.now()] *)
Definition dateNow `{Services} : I Z :=
  λ w, (Ok (now (reads w)),
        {| health := health w; reads := S (reads w);
           trail := trail w ++ [DateNow (now (reads w))] |}).

(** [healthStatus.status = s] *)
Definition setStatus (s : string) : I unit :=
  modifyHealth (λ h, {| hs_status := s; hs_responseTime := hs_responseTime h;
                        hs_services := hs_services h |}).

(** [healthStatus.services[name] = svc] *)
Definition setService (name : string) (svc : ServiceStatus) : I unit :=
  modifyHealth (λ h, {| hs_status := hs_status h;
                        hs_responseTime := hs_responseTime h;
                        hs_services := <[name := svc]> (hs_services h) |}).

(** [healthStatus.responseTime = t] *)
Definition setResponseTime (t : string) : I unit :=
  modifyHealth (λ h, {| hs_status := hs_status h; hs_responseTime := Some t;
                        hs_services := hs_services h |}).

Definition disconnected : ServiceStatus :=
  {| svc_status := "disconnected"; svc_responseTime := None;
     svc_metrics := None |}.

(** [process.env.PORT || 3000], as the text [`${PORT}`] prints. *)
Definition PORT (env_PORT : option string) : string :=
  if truthy env_PORT then template env_PORT else "3000".

(** [process.env.NODE_ENV || "development"] *)
Definition ENV (env_NODE_ENV : option string) : string :=
  if truthy env_NODE_ENV then template env_NODE_ENV else "development".

(** The handler of [app.get("/health", ...)]. *)
Definition healthHandler `{Services} : I unit :=
  modifyHealth (λ _, {| hs_status := "ok"; hs_responseTime := None;
                        hs_services := ∅ |});;
  startTime ← dateNow;
  try_catchI
    (start_time ← dateNow;
     awaitI QueryRaw queryRaw;;
     end_time ← dateNow;
     let response_time := end_time - start_time in
     averageQueryTime ← awaitI GetAverageQueryTime getAverageQueryTime;
     setService "database"
       {| svc_status := "connected";
          svc_responseTime := Some (toString response_time +:+ "ms");
          svc_metrics := Some averageQueryTime |})
    (λ err,
       setStatus "unhealthy";;
       setService "database" disconnected;;
       note (LogError "Database connection failed:" err));;
  try_catchI
    (start_time ← dateNow;
     redisPing ← awaitI RedisPing ping;
     end_time ← dateNow;
     let redis_response_time := end_time - start_time in
     setService "cache"
       {| svc_status := if String.eqb redisPing "PONG" then "connected"
                        else "disconnected";
          svc_responseTime := Some (toString redis_response_time +:+ "ms");
          svc_metrics := None |})
    (λ err,
       setStatus "unhealthy";;
       setService "cache" disconnected;;
       note (LogError "Redis connection failed:" err));;
  end_time ← dateNow;
  let total_responseTime := end_time - startTime in
  setResponseTime (toString total_responseTime +:+ "ms");;
  healthStatus ← getHealth;
  let httpStatus := if String.eqb (hs_status healthStatus) "ok" then 200
                    else 503 in
  note (Respond httpStatus healthStatus).

(** [initializeRedis] *)
Definition initializeRedis `{Services} : I unit :=
  try_catchI
    (awaitI RedisConnect redisConnect;;
     note (Log "Redis connected successfully!"))
    (λ error, note (LogError "Error during Redis initialization:" error)).

(** The callback given to [app.listen]. *)
Definition onListening (port env : string) : I unit :=
  note (Log ("Server is running on http://localhost:" +:+ port));;
  if String.eqb env "development" then
    note (Log ("📚 Swagger docs available at http://localhost:" +:+ port
                 +:+ "/api/docs"))
  else mret tt.

(** The promise chain that starts the server:
    [prisma.$connect().then(...).catch(...)]. *)
Definition startServer `{Services} (port env : string) : I unit :=
  try_catchI
    (awaitI PrismaConnect prismaConnect;;
     note (Log "Database connected successfully!");;
     try_catchI
       (initializeRedis;;
        awaitI InitCronJobs initCronJobs;;
        awaitI (Listen port) listen;;
        onListening port env)
       (λ error,
          note (LogError
                  "Server failed to start due to Redis initialization error:"
                  error)))
    (λ error, note (LogError "Error during database initialization:" error)).

Definition freshIndexWorld : IndexWorld :=
  {| health := {| hs_status := "ok"; hs_responseTime := None;
                  hs_services := ∅ |};
     reads := 0; trail := [] |}.

(** What the /health handler has sent so far. *)
Definition sent (w : IndexWorld) : list (Z * HealthStatus) :=
  omap (λ e, match e with Respond c h => Some (c, h) | _ => None end) (trail w).

(** The [console.error] lines so far. *)
Definition errorLines (w : IndexWorld) : list (string * Thrown) :=
  omap (λ e, match e with LogError m err => Some (m, err) | _ => None end)
    (trail w).

Module IndexScenario.

(** A clock ticking 5 ms per reading; a cache that answers the ping with
    something other than PONG and refuses connections; everything else
    up. *)
Definition redisRefused : Thrown := ErrorObj "connect ECONNREFUSED" None.

Definition oddCache : Services :=
  {| now := λ k, 1000 + 5 * Z.of_nat k;
     queryRaw := inr tt;
     getAverageQueryTime := inr (JNum 3);
     ping := inr "LOADING";
     prismaConnect := inr tt;
     redisConnect := inl redisRefused;
     initCronJobs := inr tt;
     listen := inr tt |}.

(** The same with the database unreachable. *)
Definition databaseDown : Services :=
  {| now := λ k, 1000 + 5 * Z.of_nat k;
     queryRaw := inl Scenario.dbDown;
     getAverageQueryTime := inr (JNum 3);
     ping := inr "PONG";
     prismaConnect := inl Scenario.dbDown;
     redisConnect := inr tt;
     initCronJobs := inr tt;
     listen := inr tt |}.

Definition allowedDecision : RateLimitDecision :=
  {| allowed := true; remaining := 4; retryAfter := numberOfZ 0 |}.

End IndexScenario.

(** ** Basic facts *)

(** A safe integer prints as its decimal digits. *)
Lemma numberToString_safe (x : spec_float) (n : Z) :
  toSafeInteger x = Some n → numberToString x = toString n.
Proof.
  destruct x as [sign|sign| |sign m e].
  - intros [= <-]. reflexivity.
  - discriminate.
  - discriminate.
  - intros Hn. unfold numberToString. now rewrite Hn.
Qed.

(** The printer at some telling values: a whole minute, an eighth of a
    minute, 8.2 minutes, a product beyond 2^53, and the switch to
    exponent form. *)
Example numberToString_examples :
  numberToString (times (numberOfZ 1) (numberOfZ 60)) = "60" ∧
  numberToString (times (dividedBy (numberOfZ 1) (numberOfZ 8)) (numberOfZ 60))
    = "7.5" ∧
  numberToString (times (dividedBy (numberOfZ 82) (numberOfZ 10)) (numberOfZ 60))
    = "491.99999999999994" ∧
  numberToString (times (numberOfZ (2 ^ 53)) (numberOfZ 60))
    = "540431955284459500" ∧
  numberToString (numberOfZ (10 ^ 21)) = "1e+21" ∧
  numberToString (dividedBy (numberOfZ 1) (numberOfZ (10 ^ 7))) = "1e-7" ∧
  numberToString (times S754_nan (numberOfZ 60)) = "NaN" ∧
  toSafeInteger (times (numberOfZ 15) (numberOfZ 60)) = Some 900%Z.
Proof. vm_compute. repeat split. Qed.

Lemma pretty_N_char_isDigit (x : N) : isDigit (pretty_N_char x) = true.
Proof. unfold pretty_N_char. repeat case_match; reflexivity. Qed.

Lemma pretty_N_go_allDigits (x : N) (s : string) :
  allDigits s = true → allDigits (pretty_N_go x s) = true.
Proof.
  revert s. induction (N.lt_wf_0 x) as [x _ IH]. intros s Hs.
  destruct (decide (x = 0)%N) as [->|Hx].
  - now rewrite pretty_N_go_0.
  - rewrite pretty_N_go_step by lia. apply IH.
    + apply N.div_lt; lia.
    + cbn [allDigits]. now rewrite pretty_N_char_isDigit, Hs.
Qed.

Lemma pretty_N_allDigits (x : N) : allDigits (pretty x) = true.
Proof.
  unfold pretty, pretty_N. case_decide; [reflexivity|].
  now apply pretty_N_go_allDigits.
Qed.

(** [toString] of an integer is integer text. *)
Lemma toString_isIntegerText (n : Z) : isIntegerText (toString n) = true.
Proof.
  assert (Htext : ∀ s, s ≠ "" → allDigits s = true → isIntegerText s = true).
  { intros [|c t] Hne Hall; [congruence|]. unfold isIntegerText.
    destruct (Ascii.ascii_dec c "-") as [->|Hc]; [discriminate Hall|].
    destruct c as [[] [] [] [] [] [] [] []];
      try (exfalso; apply Hc; reflexivity); try exact Hall;
      destruct t; exact Hall. }
  assert (Hne : ∀ x : N, pretty x ≠ "").
  { intros x Hx. pose proof (pretty_N_allDigits x) as Hd.
    assert (Hlen : String.length (pretty x) = 0%nat) by now rewrite Hx.
    unfold pretty, pretty_N in Hlen. case_decide; [discriminate Hlen|].
    assert (Hgrow : ∀ y t, (y ≠ 0)%N → String.length (pretty_N_go y t) ≠ 0%nat).
    { intros y. induction (N.lt_wf_0 y) as [y _ IH]. intros t Hy.
      rewrite pretty_N_go_step by lia.
      destruct (decide (y `div` 10 = 0)%N) as [->|Hq].
      - rewrite pretty_N_go_0. discriminate.
      - apply IH; [apply N.div_lt; lia | exact Hq]. }
    now apply (Hgrow x ""). }
  destruct n as [|q|q]; unfold toString, pretty, pretty_Z.
  - reflexivity.
  - apply Htext; [apply Hne | apply pretty_N_allDigits].
  - pose proof (Hne (N.pos q)) as Hq.
    pose proof (pretty_N_allDigits (N.pos q)) as Hd.
    change (isIntegerText ("-" +:+ pretty (N.pos q)) = true).
    destruct (pretty (N.pos q)) as [|c t]; [congruence|]. exact Hd.
Qed.

Lemma length_append (s t : string) :
  String.length (s +:+ t) = (String.length s + String.length t)%nat.
Proof. induction s as [|c s IH]; simpl; [reflexivity | now f_equal]. Qed.

Lemma append_inj_l (s s' t : string) : s +:+ t = s' +:+ t → s = s'.
Proof.
  revert s'. induction s as [|c s IH]; intros [|c' s'] Heq; simpl in Heq.
  - reflexivity.
  - exfalso. apply (f_equal String.length) in Heq.
    rewrite ?length_append in Heq. simpl in Heq.
    rewrite ?length_append in Heq. lia.
  - exfalso. apply (f_equal String.length) in Heq.
    rewrite ?length_append in Heq. simpl in Heq.
    rewrite ?length_append in Heq. lia.
  - injection Heq as -> Heq. f_equal. now apply IH.
Qed.

(** Text that is not integer text is not what any integer prints as. *)
Lemma not_integer_seconds (text : string) :
  isIntegerText text = false →
  ∀ n : Z, text +:+ " seconds" ≠ toString n +:+ " seconds".
Proof.
  intros Htext n Heq. apply append_inj_l in Heq. subst text.
  now rewrite toString_isIntegerText in Htext.
Qed.

Lemma newEvents_app w w' l : events w' = events w ++ l → newEvents w w' = l.
Proof. intros E. unfold newEvents. rewrite E. apply drop_app_length. Qed.

Lemma nextCalls_app w w' l :
  events w' = events w ++ l →
  nextCalls w' =
  nextCalls w ++ omap (λ e, match e with Next err => Some err | _ => None end) l.
Proof. intros E. unfold nextCalls. rewrite E. apply omap_app. Qed.

Lemma lookupCalls_app w w' l :
  events w' = events w ++ l →
  lookupCalls w' =
  lookupCalls w ++ omap (λ e, match e with
                               | FindById uid | IsUserVerified uid => Some uid
                               | _ => None
                               end) l.
Proof. intros E. unfold lookupCalls. rewrite E. apply omap_app. Qed.

(** Unfold a handler down to the world transformer it denotes. *)
Ltac run_handler :=
  cbv [try_catch mbind M_bind mret M_ret await emit setHeader status json
       next modifyRes getUser setUser];
  cbn [res req_user events statusCode headers body fst snd].

Ltac simpl_world :=
  cbn [res req_user events statusCode headers body fst snd negb].

Ltac flatten_events := rewrite <- ?app_assoc; cbn [app].

(** ** The rate-limit middleware *)

Section RateLimiter.
Context `{RateLimitUseCase}.

(** What [rateLimiter] does once the engine has resolved to a decision:
    it logs the decision, sets the header, and enters the branch. *)
Lemma rateLimiter_resolved (req : Request) (d : RateLimitDecision) (w : World) :
  checkRateLimit req = inr d →
  rateLimiter req w =
  allowOrDeny req d
    {| res := {| statusCode := statusCode (res w);
                 headers := <["X-RateLimit-Remaining" := toString (remaining d)]>
                              (headers (res w));
                 body := body (res w) |};
       req_user := req_user w;
       events := events w ++
                 [CheckRateLimit req;
                  ConsoleLog [JBool (allowed d); JNum (remaining d)];
                  SetHeader "X-RateLimit-Remaining" (toString (remaining d))] |}.
Proof.
  intros Hd. unfold rateLimiter. run_handler. rewrite Hd.
  simpl_world. flatten_events.
  unfold allowOrDeny. destruct (allowed d); reflexivity.
Qed.

(** C3, as the code has it.  When the engine's decision has
    [allowed = false], the middleware answers at once with status 429 and
    the body
    [{error: "Too Many Requests", message: <text>, retryAfter: "<n> seconds"}]
    where [n] is the decision's [retryAfter] times 60 as JavaScript prints
    that number: its decimal digits whenever the product is a safe
    integer, its shortest decimal form otherwise.  A [traceId] field
    follows exactly when [req.traceId] is a non-empty string; [next] is
    not called. *)
Theorem rateLimiter_denied (req : Request) (d : RateLimitDecision) (w : World) :
  checkRateLimit req = inr d →
  allowed d = false →
  let out := rateLimiter req w in
  let seconds := times (retryAfter d) (numberOfZ 60) in
  out.1 = Ok tt ∧
  statusCode (res out.2) = 429 ∧
  body (res out.2) =
    Some (JObj ([("error", JStr "Too Many Requests");
                 ("message",
                  JStr "You have exceeded the rate limit. Please try again later.");
                 ("retryAfter",
                  JStr (numberToString seconds +:+ " seconds"))]
                ++ match traceId req with
                   | Some (String c t) => [("traceId", JStr (String c t))]
                   | _ => []
                   end)) ∧
  (∀ n : Z, toSafeInteger seconds = Some n →
            numberToString seconds +:+ " seconds"
            = toString n +:+ " seconds") ∧
  nextCalls out.2 = nextCalls w ∧
  newEvents w out.2 =
    [CheckRateLimit req;
     ConsoleLog [JBool false; JNum (remaining d)];
     SetHeader "X-RateLimit-Remaining" (toString (remaining d));
     LoggerWarn ("Rate limit exceeded for " +:+ template (ip req)
                   +:+ " on " +:+ path req)
                (JObj [("remaining", JNum (remaining d));
                       ("retryAfter", JNumber (retryAfter d));
                       ("ip", optStr (ip req));
                       ("path", JStr (path req));
                       ("traceId", optStr (traceId req))]);
     Status 429;
     SendJson (tooManyRequestsBody req d)].
Proof.
  intros Hd Hdenied out seconds. subst out seconds.
  rewrite (rateLimiter_resolved req d w Hd).
  unfold allowOrDeny. rewrite Hdenied. run_handler. simpl_world.
  flatten_events.
  assert (Hbody : tooManyRequestsBody req d =
    JObj ([("error", JStr "Too Many Requests");
           ("message",
            JStr "You have exceeded the rate limit. Please try again later.");
           ("retryAfter",
            JStr (numberToString (times (retryAfter d) (numberOfZ 60))
                    +:+ " seconds"))]
          ++ match traceId req with
             | Some (String c t) => [("traceId", JStr (String c t))]
             | _ => []
             end)).
  { unfold tooManyRequestsBody, spreadTraceId.
    destruct (traceId req) as [[|c t]|]; reflexivity. }
  repeat split.
  - now rewrite Hbody.
  - intros n Hn. now rewrite (numberToString_safe _ n Hn).
  - erewrite nextCalls_app by reflexivity. cbn. apply app_nil_r.
  - erewrite newEvents_app by reflexivity. reflexivity.
Qed.

(** C4.  When the engine faults, the middleware hands that fault to the
    error handler through a single [next(error)], returns normally,
    leaves the response untouched (no 429) and makes no plain [next()]
    call. *)
Theorem rateLimiter_engine_fault (req : Request) (err : Thrown) (w : World) :
  checkRateLimit req = inl err →
  let out := rateLimiter req w in
  out.1 = Ok tt ∧
  nextCalls out.2 = nextCalls w ++ [Some err] ∧
  res out.2 = res w ∧
  newEvents w out.2 =
    [CheckRateLimit req;
     LoggerError "Rate limit check failed"
       (JObj [("error", errorMessage err);
              ("stack", errorStack err);
              ("path", JStr (path req));
              ("method", JStr (method req));
              ("ip", optStr (ip req));
              ("traceId", optStr (traceId req))]);
     Next (Some err)].
Proof.
  intros Hfault out. subst out.
  unfold rateLimiter. run_handler. rewrite Hfault. simpl_world.
  flatten_events. repeat split.
  - erewrite nextCalls_app by reflexivity. reflexivity.
  - erewrite newEvents_app by reflexivity. reflexivity.
Qed.

(** C10.  Whenever the engine resolves to a decision, allowed or denied,
    the middleware enters the allow/deny branch from a response that
    differs from the incoming one only in the header
    [X-RateLimit-Remaining], set to the decision's remaining count; the
    branch keeps that header, so the 429 answer carries it too. *)
Theorem rateLimiter_remaining_header (req : Request) (d : RateLimitDecision)
    (w : World) :
  checkRateLimit req = inr d →
  let out := rateLimiter req w in
  (∃ w1 : World,
      out = allowOrDeny req d w1 ∧
      statusCode (res w1) = statusCode (res w) ∧
      body (res w1) = body (res w) ∧
      headers (res w1) =
        <["X-RateLimit-Remaining" := toString (remaining d)]> (headers (res w)) ∧
      req_user w1 = req_user w ∧
      newEvents w w1 =
        [CheckRateLimit req;
         ConsoleLog [JBool (allowed d); JNum (remaining d)];
         SetHeader "X-RateLimit-Remaining" (toString (remaining d))]) ∧
  headers (res out.2) !! "X-RateLimit-Remaining" = Some (toString (remaining d)) ∧
  statusCode (res out.2) = (if allowed d then statusCode (res w) else 429).
Proof.
  intros Hd out. subst out.
  rewrite (rateLimiter_resolved req d w Hd). split.
  - eexists. split; [reflexivity|]. cbn [res statusCode body headers req_user].
    repeat split. erewrite newEvents_app by reflexivity. reflexivity.
  - unfold allowOrDeny. destruct (allowed d); run_handler; simpl_world;
      (split; [apply lookup_insert_eq | reflexivity]).
Qed.

End RateLimiter.

(** ** Facts about terminal answers *)

Lemma omap_none_forallb {A B} (f : A → option B) (p : A → bool) (l : list A) :
  (∀ a, p a = false → f a = None) →
  forallb (λ a, negb (p a)) l = true → omap f l = [].
Proof.
  intros Hf. induction l as [|a l IH]; cbn; [reflexivity|].
  intros Hall. apply andb_prop in Hall as [Ha Hl].
  rewrite (Hf a) by (now destruct (p a)). now apply IH.
Qed.

Lemma nextCalls_responded w pre code payload :
  forallb (λ e, negb (isNext e)) pre = true →
  nextCalls (responded w pre code payload) = nextCalls w.
Proof.
  intros Hpre. erewrite nextCalls_app by reflexivity.
  rewrite omap_app. erewrite (omap_none_forallb _ isNext pre); [|  | exact Hpre].
  - cbn. apply app_nil_r.
  - now intros [].
Qed.

Lemma lookupCalls_responded w pre code payload :
  forallb (λ e, negb (isLookup e)) pre = true →
  lookupCalls (responded w pre code payload) = lookupCalls w.
Proof.
  intros Hpre. erewrite lookupCalls_app by reflexivity.
  rewrite omap_app. erewrite (omap_none_forallb _ isLookup pre); [|  | exact Hpre].
  - cbn. apply app_nil_r.
  - now intros [].
Qed.

(** ** Facts about token extraction *)

Lemma split_head sep s : split sep s !! 0%nat = Some (upTo sep s).
Proof.
  induction s as [|c s IH]; cbn; [reflexivity|].
  destruct (Ascii.eqb c sep); [reflexivity|].
  destruct (split sep s) as [|seg rest]; cbn in *; [discriminate|].
  now inversion IH.
Qed.

Lemma split_second sep s : split sep s !! 1%nat = upTo sep <$> afterFirst sep s.
Proof.
  induction s as [|c s IH]; cbn; [reflexivity|].
  destruct (Ascii.eqb c sep).
  - cbn. apply split_head.
  - pose proof (split_head sep s) as Hh.
    destruct (split sep s) as [|seg rest]; cbn in *; [discriminate|]. exact IH.
Qed.

Lemma upTo_no_sep sep s : afterFirst sep s = None → upTo sep s = s.
Proof.
  induction s as [|c s IH]; cbn; [reflexivity|].
  destruct (Ascii.eqb c sep); [discriminate|]. intros Hs. now rewrite IH.
Qed.

Lemma afterFirst_app sep scheme rest :
  afterFirst sep scheme = None →
  afterFirst sep (scheme +:+ String sep rest) = Some rest.
Proof.
  induction scheme as [|c s IH]; simpl.
  - now rewrite Ascii.eqb_refl.
  - destruct (Ascii.eqb c sep); [discriminate|]. exact IH.
Qed.

(** For a header of the usual shape, a scheme word, one space and a
    token without spaces, the token is all that follows the space. *)
Lemma extractToken_scheme_token (req : Request) (scheme token : string) :
  authorization req = Some (scheme +:+ String " " token) →
  afterFirst " " scheme = None →
  afterFirst " " token = None →
  extractToken req = Some token.
Proof.
  intros Hh Hscheme Htoken. unfold extractToken. rewrite Hh, split_second.
  rewrite (afterFirst_app " " scheme token Hscheme). cbn.
  now rewrite (upTo_no_sep " " token Htoken).
Qed.

(** ** The auth middleware *)

Section AuthMiddleware.
Context `{TokenVerifier} `{UserRepository}.
Variable secret : string.

(** The ways through [authMiddleware], one lemma each. *)

Lemma auth_no_token (req : Request) (w : World) :
  truthy (extractToken req) = false →
  authMiddleware secret req w =
  (Ok tt, responded w [] 401 (messageBody "No token provided")).
Proof.
  intros Hfalsy. unfold authMiddleware.
  destruct (extractToken req) as [[|c t]|]; try discriminate;
    run_handler; flatten_events; reflexivity.
Qed.

Lemma auth_invalid_token (req : Request) (token : string) (err : Thrown)
    (w : World) :
  extractToken req = Some token → token ≠ "" →
  jwt_verify token secret = inl err →
  authMiddleware secret req w =
  (Ok tt, responded w [JwtVerify token secret] 401 (messageBody "Invalid token")).
Proof.
  intros Htok Hne Hv. unfold authMiddleware. rewrite Htok.
  destruct token as [|c t]; [congruence|].
  run_handler. rewrite Hv. simpl_world. flatten_events. reflexivity.
Qed.

Lemma auth_lookup_fault (req : Request) (token : string)
    (decoded : DecodedUser) (err : Thrown) (w : World) :
  extractToken req = Some token → token ≠ "" →
  jwt_verify token secret = inr decoded →
  findById (decoded_id decoded) = inl err →
  authMiddleware secret req w =
  (Ok tt, responded w [JwtVerify token secret; FindById (decoded_id decoded)]
            401 (messageBody "Invalid token")).
Proof.
  intros Htok Hne Hv Hf. unfold authMiddleware. rewrite Htok.
  destruct token as [|c t]; [congruence|].
  run_handler. rewrite Hv. simpl_world. rewrite Hf. simpl_world.
  flatten_events. reflexivity.
Qed.

Lemma auth_user_not_found (req : Request) (token : string)
    (decoded : DecodedUser) (w : World) :
  extractToken req = Some token → token ≠ "" →
  jwt_verify token secret = inr decoded →
  findById (decoded_id decoded) = inr None →
  authMiddleware secret req w =
  (Ok tt, responded w [JwtVerify token secret; FindById (decoded_id decoded)]
            401 (messageBody "User not found")).
Proof.
  intros Htok Hne Hv Hf. unfold authMiddleware. rewrite Htok.
  destruct token as [|c t]; [congruence|].
  run_handler. rewrite Hv. simpl_world. rewrite Hf. simpl_world.
  flatten_events. reflexivity.
Qed.

Lemma auth_unverified (req : Request) (token : string)
    (decoded : DecodedUser) (user : UserRecord) (w : World) :
  extractToken req = Some token → token ≠ "" →
  jwt_verify token secret = inr decoded →
  findById (decoded_id decoded) = inr (Some user) →
  user_isVerified user = false →
  authMiddleware secret req w =
  (Ok tt, responded w [JwtVerify token secret; FindById (decoded_id decoded)]
            403 (messageBody verificationMessage)).
Proof.
  intros Htok Hne Hv Hf Hu. unfold authMiddleware. rewrite Htok.
  destruct token as [|c t]; [congruence|].
  run_handler. rewrite Hv. simpl_world. rewrite Hf, Hu. simpl_world.
  flatten_events. reflexivity.
Qed.

Lemma auth_verified (req : Request) (token : string)
    (decoded : DecodedUser) (user : UserRecord) (w : World) :
  extractToken req = Some token → token ≠ "" →
  jwt_verify token secret = inr decoded →
  findById (decoded_id decoded) = inr (Some user) →
  user_isVerified user = true →
  authMiddleware secret req w =
  (Ok tt,
   {| res := res w;
      req_user := Some {| id := user_id user;
                          email := user_email user;
                          role := decoded_role decoded;
                          isVerified := user_isVerified user |};
      events := events w ++
                [JwtVerify token secret; FindById (decoded_id decoded);
                 Next None] |}).
Proof.
  intros Htok Hne Hv Hf Hu. unfold authMiddleware. rewrite Htok.
  destruct token as [|c t]; [congruence|].
  run_handler. rewrite Hv. simpl_world. rewrite Hf, Hu. simpl_world.
  flatten_events. reflexivity.
Qed.

(** What the client sees when the user lookup rejects during
    authentication: the generic lemma behind the concrete run below. *)
Lemma auth_lookup_fault_answer (req : Request) (token : string)
    (decoded : DecodedUser) (err : Thrown) (w : World) :
  extractToken req = Some token → token ≠ "" →
  jwt_verify token secret = inr decoded →
  findById (decoded_id decoded) = inl err →
  let out := authMiddleware secret req w in
  statusCode (res out.2) = 401 ∧
  body (res out.2) = Some (messageBody "Invalid token") ∧
  nextCalls out.2 = nextCalls w.
Proof.
  intros Htok Hne Hv Hf out. subst out.
  rewrite (auth_lookup_fault req token decoded err w Htok Hne Hv Hf).
  cbn [fst snd]. repeat split. now apply nextCalls_responded.
Qed.

(** C2.  When the token verifies, the user is found and is verified, the
    object stored in [req.user] takes its [role] from the decoded token,
    and its [id], [email] and [isVerified] from the user record; the
    record's own role plays no part. *)
Theorem authMiddleware_role_from_token (req : Request) (token : string)
    (decoded : DecodedUser) (user : UserRecord) (w : World) :
  extractToken req = Some token → token ≠ "" →
  jwt_verify token secret = inr decoded →
  findById (decoded_id decoded) = inr (Some user) →
  user_isVerified user = true →
  let out := authMiddleware secret req w in
  ∃ attached : AuthenticatedUser,
    req_user out.2 = Some attached ∧
    role attached = decoded_role decoded ∧
    email attached = user_email user ∧
    isVerified attached = user_isVerified user ∧
    id attached = user_id user ∧
    nextCalls out.2 = nextCalls w ++ [None].
Proof.
  intros Htok Hne Hv Hf Hu out. subst out.
  rewrite (auth_verified req token decoded user w Htok Hne Hv Hf Hu).
  cbn [fst snd req_user]. eexists. split; [reflexivity|].
  cbn [role email isVerified id]. repeat split.
  erewrite nextCalls_app by reflexivity. reflexivity.
Qed.

(** C6.  For a token that verifies: no user gives 401 "User not found"
    and [next] is not called; an unverified user gives 403 with the
    verification message and [next] is not called; a verified user gives
    one [next()] call, with a [req.user] whose [isVerified] is [true]. *)
Theorem authMiddleware_after_verification (req : Request) (token : string)
    (decoded : DecodedUser) (w : World) :
  extractToken req = Some token → token ≠ "" →
  jwt_verify token secret = inr decoded →
  let out := authMiddleware secret req w in
  (findById (decoded_id decoded) = inr None →
     statusCode (res out.2) = 401 ∧
     body (res out.2) = Some (messageBody "User not found") ∧
     nextCalls out.2 = nextCalls w) ∧
  (∀ user, findById (decoded_id decoded) = inr (Some user) →
     user_isVerified user = false →
     statusCode (res out.2) = 403 ∧
     body (res out.2) =
       Some (messageBody
               "Email not verified. Please verify your email to proceed.") ∧
     nextCalls out.2 = nextCalls w) ∧
  (∀ user, findById (decoded_id decoded) = inr (Some user) →
     user_isVerified user = true →
     nextCalls out.2 = nextCalls w ++ [None] ∧
     res out.2 = res w ∧
     ∃ attached, req_user out.2 = Some attached ∧ isVerified attached = true).
Proof.
  intros Htok Hne Hv out. subst out. repeat split.
  - rewrite (auth_user_not_found req token decoded w); auto.
  - rewrite (auth_user_not_found req token decoded w); auto.
  - rewrite (auth_user_not_found req token decoded w); auto.
    now apply nextCalls_responded.
  - rewrite (auth_unverified req token decoded user w); auto.
  - rewrite (auth_unverified req token decoded user w); auto.
  - rewrite (auth_unverified req token decoded user w); auto.
    now apply nextCalls_responded.
  - rewrite (auth_verified req token decoded user w); auto.
    erewrite nextCalls_app by reflexivity. reflexivity.
  - rewrite (auth_verified req token decoded user w); auto.
  - rewrite (auth_verified req token decoded user w); auto.
    cbn [fst snd req_user]. eexists. split; [reflexivity|]. assumption.
Qed.

(** C8.  With no [Authorization] header the answer is 401
    "No token provided"; neither the token verifier nor the user
    repository is called, and [next] is not called. *)
Theorem authMiddleware_no_header (req : Request) (w : World) :
  authorization req = None →
  let out := authMiddleware secret req w in
  statusCode (res out.2) = 401 ∧
  body (res out.2) = Some (messageBody "No token provided") ∧
  lookupCalls out.2 = lookupCalls w ∧
  nextCalls out.2 = nextCalls w ∧
  newEvents w out.2 = [Status 401; SendJson (messageBody "No token provided")].
Proof.
  intros Hnone out. subst out.
  rewrite auth_no_token by (unfold extractToken; now rewrite Hnone).
  cbn [fst snd]. repeat split.
  - now apply lookupCalls_responded.
  - now apply nextCalls_responded.
  - erewrite newEvents_app by reflexivity. reflexivity.
Qed.

End AuthMiddleware.

(** C7.  When verification of the extracted token fails, for whatever
    reason the verifier reports, the answer is 401 "Invalid token" and the
    run is the same for every user repository: the repository is not
    consulted at all. *)
Theorem authMiddleware_invalid_token `{TokenVerifier}
    (repo repo' : UserRepository) (secret : string) (req : Request)
    (token : string) (err : Thrown) (w : World) :
  extractToken req = Some token → token ≠ "" →
  jwt_verify token secret = inl err →
  let out := @authMiddleware _ repo secret req w in
  statusCode (res out.2) = 401 ∧
  body (res out.2) = Some (messageBody "Invalid token") ∧
  nextCalls out.2 = nextCalls w ∧
  lookupCalls out.2 = lookupCalls w ∧
  @authMiddleware _ repo' secret req w = out.
Proof.
  intros Htok Hne Hv out. subst out.
  rewrite !(auth_invalid_token secret req token err w Htok Hne Hv).
  cbn [fst snd]. repeat split.
  - now apply nextCalls_responded.
  - now apply lookupCalls_responded.
Qed.

Section TokenExtraction.
Context `{TokenVerifier} `{UserRepository}.
Variable secret : string.

(** Whatever happens later, a non-empty extracted token is the first
    thing the middleware hands to [jwt.verify]. *)
Lemma auth_token_reaches_verifier (req : Request) (token : string) (w : World) :
  extractToken req = Some token → token ≠ "" →
  ∃ rest, newEvents w (authMiddleware secret req w).2
          = JwtVerify token secret :: rest.
Proof.
  intros Htok Hne.
  destruct (jwt_verify token secret) as [err|decoded] eqn:Hv.
  - rewrite (auth_invalid_token secret req token err w Htok Hne Hv).
    eexists. cbn [snd]. erewrite newEvents_app by reflexivity. reflexivity.
  - destruct (findById (decoded_id decoded)) as [err|[user|]] eqn:Hf.
    + rewrite (auth_lookup_fault secret req token decoded err w Htok Hne Hv Hf).
      eexists. cbn [snd]. erewrite newEvents_app by reflexivity. reflexivity.
    + destruct (user_isVerified user) eqn:Hu.
      * rewrite (auth_verified secret req token decoded user w Htok Hne Hv Hf Hu).
        eexists. cbn [snd]. erewrite newEvents_app by reflexivity. reflexivity.
      * rewrite (auth_unverified secret req token decoded user w Htok Hne Hv Hf Hu).
        eexists. cbn [snd]. erewrite newEvents_app by reflexivity. reflexivity.
    + rewrite (auth_user_not_found secret req token decoded w Htok Hne Hv Hf).
      eexists. cbn [snd]. erewrite newEvents_app by reflexivity. reflexivity.
Qed.

(** C9, as the code has it.  The token is the second space-separated
    segment of the [Authorization] header: the text after the first
    space, cut at the next space.  The scheme word in front of it is not
    inspected: any non-empty second segment goes to [jwt.verify].  A
    header without a space, or with an empty second segment, is answered
    401 "No token provided" without verifying anything. *)
Theorem authMiddleware_token_is_second_segment (req : Request) (h : string)
    (w : World) :
  authorization req = Some h →
  let out := authMiddleware secret req w in
  extractToken req = upTo " " <$> afterFirst " " h ∧
  (∀ token, extractToken req = Some token → token ≠ "" →
     ∃ rest, newEvents w out.2 = JwtVerify token secret :: rest) ∧
  (afterFirst " " h = None ∨ extractToken req = Some "" →
     statusCode (res out.2) = 401 ∧
     body (res out.2) = Some (messageBody "No token provided") ∧
     newEvents w out.2 =
       [Status 401; SendJson (messageBody "No token provided")]).
Proof.
  intros Hh out. subst out.
  assert (Hex : extractToken req = upTo " " <$> afterFirst " " h).
  { unfold extractToken. rewrite Hh. apply split_second. }
  split; [exact Hex|]. split.
  - intros token Htok Hne. now apply auth_token_reaches_verifier.
  - intros Hcase.
    assert (Hfalsy : truthy (extractToken req) = false).
    { destruct Hcase as [Hnone|Hempty].
      - rewrite Hex, Hnone. reflexivity.
      - rewrite Hempty. reflexivity. }
    rewrite (auth_no_token secret req w Hfalsy). cbn [fst snd].
    repeat split. erewrite newEvents_app by reflexivity. reflexivity.
Qed.

End TokenExtraction.

(** ** The verified-email gate *)

Section RequireVerifiedEmail.
Context `{UserRepository}.

Lemma gate_no_user (req : Request) (w : World) :
  req_user w = None →
  requireVerifiedEmail req w =
  (Ok tt, responded w [] 401
            (messageBody "Unauthorized - Authentication required")).
Proof.
  intros Hu. unfold requireVerifiedEmail. run_handler. rewrite Hu.
  simpl_world. flatten_events. unfold responded. now rewrite Hu.
Qed.

Lemma gate_unverified (req : Request) (user : AuthenticatedUser) (w : World) :
  req_user w = Some user →
  isUserVerified (id user) = inr false →
  requireVerifiedEmail req w =
  (Ok tt, responded w [IsUserVerified (id user)] 403 verificationNeededBody).
Proof.
  intros Hu Hq. unfold requireVerifiedEmail. run_handler. rewrite Hu, Hq.
  simpl_world. flatten_events. unfold responded. now rewrite Hu.
Qed.

Lemma gate_verified (req : Request) (user : AuthenticatedUser) (w : World) :
  req_user w = Some user →
  isUserVerified (id user) = inr true →
  requireVerifiedEmail req w =
  (Ok tt,
   {| res := res w;
      req_user := Some {| id := id user; email := email user;
                          role := role user; isVerified := true |};
      events := events w ++ [IsUserVerified (id user); Next None] |}).
Proof.
  intros Hu Hq. unfold requireVerifiedEmail. run_handler. rewrite Hu, Hq.
  simpl_world. flatten_events. reflexivity.
Qed.

Lemma gate_lookup_fault (req : Request) (user : AuthenticatedUser)
    (err : Thrown) (w : World) :
  req_user w = Some user →
  isUserVerified (id user) = inl err →
  requireVerifiedEmail req w =
  (Ok tt,
   responded w
     [IsUserVerified (id user);
      ConsoleError "Error checking email verification status:" err]
     500 (JObj ([("message", JStr "Internal server error")]
                ++ spreadTraceId req))).
Proof.
  intros Hu Hq. unfold requireVerifiedEmail. run_handler. rewrite Hu, Hq.
  simpl_world. flatten_events. unfold responded. now rewrite Hu.
Qed.

(** C5, as the code has it.  (1) Without a [req.user] the gate answers
    401 with the message "Unauthorized - Authentication required" and
    does not call [next].  (2) With a [req.user] it asks the repository
    for the verification status of that user's id, whatever the
    [isVerified] flag cached in [req.user] says, and on [false] answers
    403 with [verificationNeeded: true].  (3) If that query fails it
    answers 500 "Internal server error", with the trace id when the
    request has a non-empty one; [next] is not called and [req.user] is
    left as it was. *)
Theorem requireVerifiedEmail_gate (req : Request) (w : World) :
  let out := requireVerifiedEmail req w in
  (req_user w = None →
     statusCode (res out.2) = 401 ∧
     body (res out.2) =
       Some (JObj [("message", JStr "Unauthorized - Authentication required")]) ∧
     nextCalls out.2 = nextCalls w ∧
     lookupCalls out.2 = lookupCalls w) ∧
  (∀ user, req_user w = Some user →
     isUserVerified (id user) = inr false →
     statusCode (res out.2) = 403 ∧
     body (res out.2) =
       Some (JObj [("message", JStr "Forbidden - Email verification required");
                   ("verificationNeeded", JBool true)]) ∧
     nextCalls out.2 = nextCalls w ∧
     lookupCalls out.2 = lookupCalls w ++ [id user]) ∧
  (∀ user err, req_user w = Some user →
     isUserVerified (id user) = inl err →
     statusCode (res out.2) = 500 ∧
     body (res out.2) =
       Some (JObj ([("message", JStr "Internal server error")]
                   ++ match traceId req with
                      | Some (String c t) => [("traceId", JStr (String c t))]
                      | _ => []
                      end)) ∧
     nextCalls out.2 = nextCalls w ∧
     req_user out.2 = req_user w).
Proof.
  intros out. subst out. split; [|split].
  - intros Hu. rewrite (gate_no_user req w Hu). cbn [fst snd].
    repeat split.
    + now apply nextCalls_responded.
    + now apply lookupCalls_responded.
  - intros user Hu Hq. rewrite (gate_unverified req user w Hu Hq).
    cbn [fst snd]. repeat split.
    + now apply nextCalls_responded.
    + erewrite lookupCalls_app by reflexivity. reflexivity.
  - intros user err Hu Hq. rewrite (gate_lookup_fault req user err w Hu Hq).
    cbn [fst snd]. repeat split.
    + cbn [res responded body]. unfold spreadTraceId.
      destruct (traceId req) as [[|c t]|]; reflexivity.
    + now apply nextCalls_responded.
Qed.

End RequireVerifiedEmail.

(** ** Concrete runs *)

(** C1.  A request with [Authorization: Bearer good], a token that
    verifies, and a user repository that rejects: [authMiddleware] answers
    401 "Invalid token" and never calls [next], so the fault is shown to
    the client as an authentication failure and does not reach the error
    handler. *)
Theorem authMiddleware_lookup_fault_is_answered_401 :
  let out := @authMiddleware Scenario.verifier Scenario.repoDown "defaultSecret"
               (Scenario.request (Some "Bearer good")) (initialWorld None) in
  out.1 = Ok tt ∧
  statusCode (res out.2) = 401 ∧
  body (res out.2) = Some (JObj [("message", JStr "Invalid token")]) ∧
  nextCalls out.2 = [] ∧
  events out.2 =
    [JwtVerify "good" "defaultSecret"; FindById "u1"; Status 401;
     SendJson (JObj [("message", JStr "Invalid token")])].
Proof.
  cbv zeta.
  rewrite (@auth_lookup_fault Scenario.verifier Scenario.repoDown "defaultSecret"
             (Scenario.request (Some "Bearer good")) "good" Scenario.adminClaim
             Scenario.dbDown (initialWorld None)
             eq_refl ltac:(discriminate) eq_refl eq_refl).
  repeat split.
Qed.

(** The sibling handlers treat the same kind of fault as a server error:
    the gate answers 500, the rate limiter forwards it with [next(error)]. *)
Example siblings_report_faults_as_server_errors :
  statusCode (res (@requireVerifiedEmail Scenario.repoDown
                     (Scenario.request (Some "Bearer good"))
                     (initialWorld (Some (Scenario.cachedUser true)))).2) = 500 ∧
  nextCalls (@rateLimiter (Scenario.engine (inl Scenario.counterDown))
               (Scenario.request None) (initialWorld None)).2
  = [Some Scenario.counterDown].
Proof. split; reflexivity. Qed.

(** C3, the claim as worded (retryAfter is "<int> seconds") fails for a
    delay that is not a whole number of minutes: for 8.2 minutes the
    product is the double 491.99999999999994, and that is what the body
    shows; no integer prints like that. *)
Lemma rateLimiter_retryAfter_counterexample :
  let out := @rateLimiter (Scenario.engine (inr Scenario.deniedFor8_2))
               (Scenario.request None) (initialWorld None) in
  allowed Scenario.deniedFor8_2 = false ∧
  body (res out.2) =
    Some (JObj [("error", JStr "Too Many Requests");
                ("message",
                 JStr "You have exceeded the rate limit. Please try again later.");
                ("retryAfter", JStr "491.99999999999994 seconds");
                ("traceId", JStr "trace-42")]) ∧
  ∀ n : Z, "491.99999999999994 seconds" ≠ toString n +:+ " seconds".
Proof.
  cbv zeta. split; [reflexivity|]. split.
  - rewrite (@rateLimiter_resolved (Scenario.engine (inr Scenario.deniedFor8_2))
               (Scenario.request None) Scenario.deniedFor8_2 (initialWorld None)
               eq_refl).
    vm_compute. reflexivity.
  - exact (not_integer_seconds "491.99999999999994" eq_refl).
Qed.

(** C5, the claim as worded ("401 Authentication required") fails: without
    a [req.user] the gate does answer 401, but the message it sends is a
    different string. *)
Lemma requireVerifiedEmail_message_counterexample :
  let w := initialWorld None in
  let out := @requireVerifiedEmail (Scenario.repoWith None true)
               (Scenario.request None) w in
  req_user w = None ∧
  statusCode (res out.2) = 401 ∧
  body (res out.2) ≠ Some (JObj [("message", JStr "Authentication required")]) ∧
  body (res out.2) =
    Some (JObj [("message", JStr "Unauthorized - Authentication required")]).
Proof.
  cbv zeta. rewrite (@gate_no_user (Scenario.repoWith None true)
                       (Scenario.request None) (initialWorld None) eq_refl).
  cbn [fst snd responded res statusCode body messageBody].
  repeat split. discriminate.
Qed.

(** C9, the claim as worded ("the substring after the first space") fails
    on a header with a second space: after the first space of
    ["Bearer a b"] comes ["a b"], while the token verified is ["a"]. *)
Lemma authMiddleware_token_counterexample :
  let req := Scenario.request (Some "Bearer a b") in
  let out := @authMiddleware Scenario.verifier (Scenario.repoWith None true)
               "defaultSecret" req (initialWorld None) in
  afterFirst " " "Bearer a b" = Some "a b" ∧
  extractToken req = Some "a" ∧
  extractToken req ≠ afterFirst " " "Bearer a b" ∧
  events out.2 =
    [JwtVerify "a" "defaultSecret"; Status 401;
     SendJson (JObj [("message", JStr "Invalid token")])].
Proof.
  cbv zeta.
  rewrite (@auth_invalid_token Scenario.verifier (Scenario.repoWith None true)
             "defaultSecret" (Scenario.request (Some "Bearer a b")) "a"
             (ErrorObj "jwt malformed" None) (initialWorld None)
             eq_refl ltac:(discriminate) eq_refl).
  repeat split. discriminate.
Qed.

(** ** The theorems at concrete requests *)

Module Witness.
Import Scenario.

(** A denied request with a one-minute delay: 429, "60 seconds". *)
Lemma rateLimiter_denied_witness :
  let out := @rateLimiter (engine (inr denied)) (request None)
               (initialWorld None) in
  statusCode (res out.2) = 429 ∧
  body (res out.2) =
    Some (JObj [("error", JStr "Too Many Requests");
                ("message",
                 JStr "You have exceeded the rate limit. Please try again later.");
                ("retryAfter", JStr "60 seconds");
                ("traceId", JStr "trace-42")]) ∧
  nextCalls out.2 = [].
Proof.
  pose proof (@rateLimiter_denied (engine (inr denied)) (request None) denied
                (initialWorld None) eq_refl eq_refl)
    as (_ & Hs & Hb & Hint & Hn & _).
  split; [exact Hs|]. split; [|exact Hn].
  rewrite Hb, (Hint 60%Z ltac:(vm_compute; reflexivity)). reflexivity.
Defined.

(** A faulting counter store: one [next(error)], response untouched. *)
Lemma rateLimiter_engine_fault_witness :
  let out := @rateLimiter (engine (inl counterDown)) (request None)
               (initialWorld None) in
  nextCalls out.2 = [Some counterDown] ∧ res out.2 = freshResponse.
Proof.
  pose proof (@rateLimiter_engine_fault (engine (inl counterDown))
                (request None) counterDown (initialWorld None) eq_refl)
    as (_ & Hn & Hr & _).
  split; [exact Hn | exact Hr].
Defined.

(** The denied answer carries the header too. *)
Lemma rateLimiter_remaining_header_witness :
  let out := @rateLimiter (engine (inr denied)) (request None)
               (initialWorld None) in
  headers (res out.2) !! "X-RateLimit-Remaining" = Some "0" ∧
  statusCode (res out.2) = 429.
Proof.
  pose proof (@rateLimiter_remaining_header (engine (inr denied))
                (request None) denied (initialWorld None) eq_refl)
    as (_ & Hh & Hs).
  split; [exact Hh | exact Hs].
Defined.

(** The spec's scenario: the token says "admin", the record says
    "volunteer"; the attached role is "admin". *)
Lemma authMiddleware_role_from_token_witness :
  let out := @authMiddleware verifier (repoWith (Some (volunteer true)) true)
               "defaultSecret" (request (Some "Bearer good"))
               (initialWorld None) in
  user_role (volunteer true) = "volunteer" ∧
  ∃ attached : AuthenticatedUser,
    req_user out.2 = Some attached ∧
    role attached = "admin" ∧
    email attached = "u1@example.org" ∧
    isVerified attached = true ∧
    id attached = "u1" ∧
    nextCalls out.2 = [None].
Proof.
  split; [reflexivity|].
  exact (@authMiddleware_role_from_token verifier
           (repoWith (Some (volunteer true)) true) "defaultSecret"
           (request (Some "Bearer good")) "good" adminClaim (volunteer true)
           (initialWorld None)
           eq_refl ltac:(discriminate) eq_refl eq_refl eq_refl).
Defined.

(** Deleted user, unverified user, verified user. *)
Lemma authMiddleware_after_verification_witness :
  let run := λ repo, (@authMiddleware verifier repo "defaultSecret"
                        (request (Some "Bearer good")) (initialWorld None)).2 in
  (statusCode (res (run (repoWith None true))) = 401 ∧
   body (res (run (repoWith None true))) = Some (messageBody "User not found") ∧
   nextCalls (run (repoWith None true)) = []) ∧
  (statusCode (res (run (repoWith (Some (volunteer false)) false))) = 403 ∧
   nextCalls (run (repoWith (Some (volunteer false)) false)) = []) ∧
  (nextCalls (run (repoWith (Some (volunteer true)) true)) = [None] ∧
   ∃ attached, req_user (run (repoWith (Some (volunteer true)) true))
               = Some attached ∧ isVerified attached = true).
Proof.
  pose proof (λ repo, @authMiddleware_after_verification verifier repo
                "defaultSecret" (request (Some "Bearer good")) "good"
                adminClaim (initialWorld None)
                eq_refl ltac:(discriminate) eq_refl) as Hall.
  cbv zeta. split; [|split].
  - destruct (Hall (repoWith None true)) as (Hmissing & _ & _).
    exact (Hmissing eq_refl).
  - destruct (Hall (repoWith (Some (volunteer false)) false)) as (_ & Hunv & _).
    destruct (Hunv (volunteer false) eq_refl eq_refl) as (Hs & _ & Hn).
    split; [exact Hs | exact Hn].
  - destruct (Hall (repoWith (Some (volunteer true)) true)) as (_ & _ & Hok).
    destruct (Hok (volunteer true) eq_refl eq_refl) as (Hn & _ & Hu).
    split; [exact Hn | exact Hu].
Defined.

(** A rejected token: same 401 whether or not u1 exists. *)
Lemma authMiddleware_invalid_token_witness :
  let out := @authMiddleware verifier (repoWith (Some (volunteer true)) true)
               "defaultSecret" (request (Some "Bearer expired"))
               (initialWorld None) in
  statusCode (res out.2) = 401 ∧
  body (res out.2) = Some (messageBody "Invalid token") ∧
  lookupCalls out.2 = [] ∧
  @authMiddleware verifier (repoWith None true) "defaultSecret"
    (request (Some "Bearer expired")) (initialWorld None) = out.
Proof.
  pose proof (@authMiddleware_invalid_token verifier
                (repoWith (Some (volunteer true)) true) (repoWith None true)
                "defaultSecret" (request (Some "Bearer expired")) "expired"
                (ErrorObj "jwt malformed" None) (initialWorld None)
                eq_refl ltac:(discriminate) eq_refl)
    as (Hs & Hb & _ & Hl & Hsame).
  split; [exact Hs|]. split; [exact Hb|]. split; [exact Hl | exact Hsame].
Defined.

(** No header: 401, and the repository is never asked. *)
Lemma authMiddleware_no_header_witness :
  let out := @authMiddleware verifier (repoWith (Some (volunteer true)) true)
               "defaultSecret" (request None) (initialWorld None) in
  statusCode (res out.2) = 401 ∧
  body (res out.2) = Some (messageBody "No token provided") ∧
  lookupCalls out.2 = [].
Proof.
  pose proof (@authMiddleware_no_header verifier
                (repoWith (Some (volunteer true)) true) "defaultSecret"
                (request None) (initialWorld None) eq_refl)
    as (Hs & Hb & Hl & _).
  split; [exact Hs|]. split; [exact Hb | exact Hl].
Defined.

(** ["Basic good"] is verified like ["Bearer good"]; the bare
    credential ["good"] is answered "No token provided". *)
Lemma authMiddleware_token_is_second_segment_witness :
  (extractToken (request (Some "Basic good")) = Some "good" ∧
   ∃ rest,
     newEvents (initialWorld None)
       (@authMiddleware verifier (repoWith (Some (volunteer true)) true)
          "defaultSecret" (request (Some "Basic good")) (initialWorld None)).2
     = JwtVerify "good" "defaultSecret" :: rest) ∧
  (let out := @authMiddleware verifier (repoWith (Some (volunteer true)) true)
                "defaultSecret" (request (Some "good")) (initialWorld None) in
   statusCode (res out.2) = 401 ∧
   body (res out.2) = Some (messageBody "No token provided")).
Proof.
  split.
  - destruct (@authMiddleware_token_is_second_segment verifier
                (repoWith (Some (volunteer true)) true) "defaultSecret"
                (request (Some "Basic good")) "Basic good" (initialWorld None)
                eq_refl) as (Hex & Hverify & _).
    split; [exact Hex|]. exact (Hverify "good" eq_refl ltac:(discriminate)).
  - destruct (@authMiddleware_token_is_second_segment verifier
                (repoWith (Some (volunteer true)) true) "defaultSecret"
                (request (Some "good")) "good" (initialWorld None)
                eq_refl) as (_ & _ & Hnone).
    destruct (Hnone (or_introl eq_refl)) as (Hs & Hb & _).
    split; [exact Hs | exact Hb].
Defined.

(** No user: 401.  Cached flag [true] but the live answer is [false]:
    403.  Repository down: 500 with the trace id. *)
Lemma requireVerifiedEmail_gate_witness :
  (statusCode (res (@requireVerifiedEmail (repoWith None true)
                      (request None) (initialWorld None)).2) = 401) ∧
  (let out := @requireVerifiedEmail (repoWith None false) (request None)
                (initialWorld (Some (cachedUser true))) in
   statusCode (res out.2) = 403 ∧
   body (res out.2) = Some verificationNeededBody ∧
   lookupCalls out.2 = ["u1"]) ∧
  (let out := @requireVerifiedEmail repoDown (request None)
                (initialWorld (Some (cachedUser true))) in
   statusCode (res out.2) = 500 ∧
   body (res out.2) =
     Some (JObj [("message", JStr "Internal server error");
                 ("traceId", JStr "trace-42")]) ∧
   nextCalls out.2 = []).
Proof.
  split; [|split].
  - destruct (@requireVerifiedEmail_gate (repoWith None true) (request None)
                (initialWorld None)) as (Hnone & _ & _).
    exact (proj1 (Hnone eq_refl)).
  - destruct (@requireVerifiedEmail_gate (repoWith None false) (request None)
                (initialWorld (Some (cachedUser true)))) as (_ & Hunv & _).
    destruct (Hunv (cachedUser true) eq_refl eq_refl) as (Hs & Hb & _ & Hl).
    split; [exact Hs|]. split; [exact Hb | exact Hl].
  - destruct (@requireVerifiedEmail_gate repoDown (request None)
                (initialWorld (Some (cachedUser true)))) as (_ & _ & Hfault).
    destruct (Hfault (cachedUser true) dbDown eq_refl eq_refl)
      as (Hs & Hb & Hn & _).
    split; [exact Hs|]. split; [exact Hb | exact Hn].
Defined.

End Witness.

(** ** More on the rate-limit middleware *)

Section RateLimiterMore.
Context `{RateLimitUseCase}.

(** X1.  When the engine allows the request, [rateLimiter] calls [next()]
    once, without an error, sends no body, keeps the status code, logs no
    warning, and the only change to the response is the header. *)
Theorem rateLimiter_allowed (req : Request) (d : RateLimitDecision) (w : World) :
  checkRateLimit req = inr d →
  allowed d = true →
  let out := rateLimiter req w in
  out.1 = Ok tt ∧
  nextCalls out.2 = nextCalls w ++ [None] ∧
  statusCode (res out.2) = statusCode (res w) ∧
  body (res out.2) = body (res w) ∧
  headers (res out.2) =
    <["X-RateLimit-Remaining" := toString (remaining d)]> (headers (res w)) ∧
  newEvents w out.2 =
    [CheckRateLimit req;
     ConsoleLog [JBool true; JNum (remaining d)];
     SetHeader "X-RateLimit-Remaining" (toString (remaining d));
     Next None].
Proof.
  intros Hd Hallowed out. subst out.
  rewrite (rateLimiter_resolved req d w Hd).
  unfold allowOrDeny. rewrite Hallowed. run_handler. simpl_world.
  flatten_events. repeat split.
  - erewrite nextCalls_app by reflexivity. reflexivity.
  - erewrite newEvents_app by reflexivity. reflexivity.
Qed.

(** X2.  Whatever the engine does, [rateLimiter] returns normally, asks
    the engine once, leaves [req.user] alone and ends in exactly one way:
    a 429 answer (only on a denial), a plain [next()] (only on an
    allowance, status and body untouched), or [next(error)] (only with the
    engine's own error, response untouched). *)
Theorem rateLimiter_ends_once (req : Request) (w : World) :
  let out := rateLimiter req w in
  out.1 = Ok tt ∧
  req_user out.2 = req_user w ∧
  omap (λ e, match e with CheckRateLimit r => Some r | _ => None end)
    (newEvents w out.2) = [req] ∧
  ∃ e, endings (newEvents w out.2) = [e] ∧
       match e with
       | Answer payload =>
           statusCode (res out.2) = 429 ∧ body (res out.2) = Some payload ∧
           ∃ d, checkRateLimit req = inr d ∧ allowed d = false
       | Continue =>
           statusCode (res out.2) = statusCode (res w) ∧
           body (res out.2) = body (res w) ∧
           ∃ d, checkRateLimit req = inr d ∧ allowed d = true
       | Fail err =>
           res out.2 = res w ∧ checkRateLimit req = inl err
       end.
Proof.
  intros out. subst out.
  destruct (checkRateLimit req) as [err|d] eqn:Hd.
  - unfold rateLimiter. run_handler. rewrite Hd. simpl_world. flatten_events.
    erewrite newEvents_app by reflexivity.
    repeat split. exists (Fail err). repeat split.
  - rewrite (rateLimiter_resolved req d w Hd). unfold allowOrDeny.
    destruct (allowed d) eqn:Ha; run_handler; simpl_world; flatten_events;
      (erewrite newEvents_app by reflexivity); repeat split.
    + exists Continue. repeat split. now exists d.
    + eexists (Answer _). repeat split. now exists d.
Qed.

(** X3.  [rateLimiter] calls [res.setHeader] at most once per request:
    once, for [X-RateLimit-Remaining] with the remaining count, when the
    engine resolves, and not at all when it faults.  On the paths where it
    sends no answer itself (allowance or fault) every other header set so
    far is left as it was. *)
Theorem rateLimiter_sets_one_header (req : Request) (w : World) :
  let out := rateLimiter req w in
  setHeaderCalls (newEvents w out.2) =
    match checkRateLimit req with
    | inr d => [("X-RateLimit-Remaining", toString (remaining d))]
    | inl _ => []
    end ∧
  ((∀ d, checkRateLimit req = inr d → allowed d = true) →
   ∀ name, name ≠ "X-RateLimit-Remaining" →
           headers (res out.2) !! name = headers (res w) !! name).
Proof.
  intros out. subst out.
  destruct (checkRateLimit req) as [err|d] eqn:Hd.
  - unfold rateLimiter. run_handler. rewrite Hd. simpl_world. flatten_events.
    erewrite newEvents_app by reflexivity. split; [reflexivity|].
    intros _ name _. reflexivity.
  - rewrite (rateLimiter_resolved req d w Hd). unfold allowOrDeny.
    destruct (allowed d) eqn:Ha; run_handler; simpl_world; flatten_events;
      (erewrite newEvents_app by reflexivity); (split; [reflexivity|]).
    + intros _ name Hname. now rewrite lookup_insert_ne.
    + intros Hallowed. specialize (Hallowed d eq_refl). congruence.
Qed.

(** X4.  [applyToRoutes] keeps the layers already on the router, in place,
    and pushes one [rateLimiter] layer per listed route, in list order
    (a route listed twice gets two layers); so an empty list changes
    nothing and applying two lists in turn is applying their
    concatenation. *)
Theorem applyToRoutes_layers (router : list (string * (Request → M unit)))
    (routes more : list string) :
  applyToRoutes router routes
    = router ++ map (λ route, (route, rateLimiter)) routes ∧
  length (applyToRoutes router routes) = (length router + length routes)%nat ∧
  applyToRoutes router [] = router ∧
  applyToRoutes (applyToRoutes router routes) more
    = applyToRoutes router (routes ++ more).
Proof.
  assert (Hlayers : ∀ rs r,
            applyToRoutes r rs = r ++ map (λ route, (route, rateLimiter)) rs).
  { induction rs as [|route rs IH]; intros r; cbn.
    - now rewrite app_nil_r.
    - unfold applyToRoutes in IH. rewrite IH. unfold use.
      now rewrite <- app_assoc. }
  repeat split.
  - apply Hlayers.
  - rewrite Hlayers, length_app, length_map. reflexivity.
  - unfold applyToRoutes. now rewrite fold_left_app.
Qed.

End RateLimiterMore.

(** [setupRateLimiting] builds its middleware on the default engine
    and mounts it exactly as [applyToRoutes] would on the prefixes
    /auth, /wallet and /email, after whatever the app already has; an
    engine handed to the constructor would take the default's place. *)
Theorem setupRateLimiting_layers (newRateLimitUseCase : RateLimitUseCase)
    (app : list (string * (Request → M unit))) :
  setupRateLimiting newRateLimitUseCase app
    = @applyToRoutes newRateLimitUseCase app ["/auth"; "/wallet"; "/email"] ∧
  (∀ given, RateLimitMiddleware (Some given) newRateLimitUseCase = given) ∧
  ∀ i layer, app !! i = Some layer →
             setupRateLimiting newRateLimitUseCase app !! i = Some layer.
Proof.
  split; [reflexivity|]. split; [reflexivity|].
  intros i layer Hi. unfold setupRateLimiting, use. cbn zeta.
  rewrite <- !app_assoc. now apply lookup_app_l_Some.
Qed.

(** ** More on the auth middleware *)

(** X5.  The signing secret is never empty: a missing or empty
    [JWT_SECRET] falls back to "defaultSecret", any other value is used as
    it is. *)
Theorem SECRET_KEY_never_empty (env_JWT_SECRET : option string) :
  SECRET_KEY env_JWT_SECRET ≠ "" ∧
  (env_JWT_SECRET = None ∨ env_JWT_SECRET = Some "" ↔
   truthy env_JWT_SECRET = false) ∧
  SECRET_KEY env_JWT_SECRET =
    (if truthy env_JWT_SECRET then template env_JWT_SECRET
     else "defaultSecret") ∧
  (∀ s, env_JWT_SECRET = Some s → s ≠ "" → SECRET_KEY env_JWT_SECRET = s) ∧
  SECRET_KEY None = "defaultSecret" ∧ SECRET_KEY (Some "") = "defaultSecret".
Proof.
  destruct env_JWT_SECRET as [[|c s]|]; cbn; repeat split;
    try discriminate; try tauto; try (intros [?|?]; congruence);
    try congruence; try (intros _; now right); try (intros _; now left).
Qed.

Section AuthMiddlewareMore.
Context `{TokenVerifier} `{UserRepository}.
Variable secret : string.

(** Every run of [authMiddleware] is one of the six ways listed above. *)
Lemma auth_cases (req : Request) (w : World) :
  let out := authMiddleware secret req w in
  (truthy (extractToken req) = false ∧
   out = (Ok tt, responded w [] 401 (messageBody "No token provided"))) ∨
  (∃ token, extractToken req = Some token ∧ token ≠ "" ∧
     ((∃ err, jwt_verify token secret = inl err ∧
         out = (Ok tt, responded w [JwtVerify token secret] 401
                         (messageBody "Invalid token"))) ∨
      (∃ decoded, jwt_verify token secret = inr decoded ∧
         let pre := [JwtVerify token secret; FindById (decoded_id decoded)] in
         ((∃ err, findById (decoded_id decoded) = inl err ∧
             out = (Ok tt, responded w pre 401 (messageBody "Invalid token"))) ∨
          (findById (decoded_id decoded) = inr None ∧
             out = (Ok tt, responded w pre 401 (messageBody "User not found"))) ∨
          (∃ user, findById (decoded_id decoded) = inr (Some user) ∧
             ((user_isVerified user = false ∧
                 out = (Ok tt, responded w pre 403
                                 (messageBody verificationMessage))) ∨
              (user_isVerified user = true ∧
                 out = (Ok tt,
                        {| res := res w;
                           req_user := Some {| id := user_id user;
                                               email := user_email user;
                                               role := decoded_role decoded;
                                               isVerified := user_isVerified user |};
                           events := events w ++ pre ++ [Next None] |})))))))).
Proof.
  intros out. subst out.
  destruct (truthy (extractToken req)) eqn:Htruthy.
  - right. destruct (extractToken req) as [[|c t]|] eqn:Htok; try discriminate.
    exists (String c t). split; [reflexivity|]. split; [discriminate|].
    assert (Hne : String c t ≠ "") by discriminate.
    destruct (jwt_verify (String c t) secret) as [err|decoded] eqn:Hv.
    + left. exists err. split; [reflexivity|].
      exact (auth_invalid_token secret req _ err w Htok Hne Hv).
    + right. exists decoded. split; [reflexivity|]. cbn zeta.
      destruct (findById (decoded_id decoded)) as [err|[user|]] eqn:Hf.
      * left. exists err. split; [reflexivity|].
        exact (auth_lookup_fault secret req _ decoded err w Htok Hne Hv Hf).
      * right. right. exists user. split; [reflexivity|].
        destruct (user_isVerified user) eqn:Hu.
        -- right. split; [reflexivity|].
           rewrite (auth_verified secret req _ decoded user w Htok Hne Hv Hf Hu).
           now rewrite Hu.
        -- left. split; [reflexivity|].
           exact (auth_unverified secret req _ decoded user w Htok Hne Hv Hf Hu).
      * right. left. split; [reflexivity|].
        exact (auth_user_not_found secret req _ decoded w Htok Hne Hv Hf).
  - left. split; [reflexivity|]. now apply auth_no_token.
Qed.

(** X6.  Whatever the token verifier and the repository do,
    [authMiddleware] returns normally, never calls [res.setHeader]
    and ends in exactly one way: either one answer with status 401 or 403,
    leaving [req.user] as it was, or one plain [next()] with the response
    untouched and a [req.user] attached whose [isVerified] is true.  It
    never calls [next(error)]. *)
Theorem authMiddleware_ends_once (req : Request) (w : World) :
  let out := authMiddleware secret req w in
  out.1 = Ok tt ∧
  setHeaderCalls (newEvents w out.2) = [] ∧
  ∃ e, endings (newEvents w out.2) = [e] ∧
       match e with
       | Answer payload =>
           (statusCode (res out.2) = 401 ∨ statusCode (res out.2) = 403) ∧
           body (res out.2) = Some payload ∧
           req_user out.2 = req_user w
       | Continue =>
           res out.2 = res w ∧
           ∃ attached, req_user out.2 = Some attached ∧
                       isVerified attached = true
       | Fail _ => False
       end.
Proof.
  intros out. subst out.
  destruct (auth_cases req w) as
    [(_ & ->)|(token & _ & _ &
       [(err & _ & ->)|(decoded & _ &
          [(err & _ & ->)|[(_ & ->)|(user & _ &
             [(_ & ->)|(Hu & ->)])]])])];
    cbn [fst snd]; (split; [reflexivity|]);
    (erewrite newEvents_app by reflexivity); (split; [reflexivity|]); cbn;
    try (eexists (Answer _); split; [reflexivity|]; cbn; tauto).
  exists Continue. split; [reflexivity|]. split; [reflexivity|].
  eexists. split; [reflexivity|]. exact Hu.
Qed.

(** X7.  [authMiddleware] queries the user repository at most once, and
    only with the [id] claim of a token that [jwt.verify] accepted; the
    verifier itself is called at most once, with the extracted token and
    the secret. *)
Theorem authMiddleware_lookup_uses_token_id (req : Request) (w : World) :
  let out := authMiddleware secret req w in
  (lookupCalls out.2 = lookupCalls w ∨
   ∃ token decoded,
     extractToken req = Some token ∧
     jwt_verify token secret = inr decoded ∧
     lookupCalls out.2 = lookupCalls w ++ [decoded_id decoded]) ∧
  (omap (λ e, match e with JwtVerify t s => Some (t, s) | _ => None end)
     (newEvents w out.2) = [] ∧ truthy (extractToken req) = false ∨
   ∃ token, extractToken req = Some token ∧
     omap (λ e, match e with JwtVerify t s => Some (t, s) | _ => None end)
       (newEvents w out.2) = [(token, secret)]).
Proof.
  intros out. subst out.
  destruct (auth_cases req w) as
    [(Hfalsy & ->)|(token & Htok & _ &
       [(err & _ & ->)|(decoded & Hv &
          [(err & _ & ->)|[(_ & ->)|(user & _ &
             [(_ & ->)|(_ & ->)])]])])];
    cbn [fst snd]; (erewrite newEvents_app by reflexivity);
    (erewrite lookupCalls_app by reflexivity); cbn; rewrite ?app_nil_r;
    (split; [first [now left | right; now exists token, decoded]
            |first [left; now split | right; now exists token]]).
Qed.

(** X8.  The gate after the auth middleware: on the world a passing
    [authMiddleware] leaves behind, [requireVerifiedEmail] never answers
    401; it asks the repository about the id of the user record found
    (not about the flag just attached), and a live [false] there turns the
    request into a 403 although the record said verified. *)
Theorem gate_after_auth (req : Request) (token : string)
    (decoded : DecodedUser) (user : UserRecord) (w : World) :
  extractToken req = Some token → token ≠ "" →
  jwt_verify token secret = inr decoded →
  findById (decoded_id decoded) = inr (Some user) →
  user_isVerified user = true →
  let out := requireVerifiedEmail req (authMiddleware secret req w).2 in
  Forall (λ e, e ≠ Status 401) (newEvents w out.2) ∧
  lookupCalls out.2 = lookupCalls w ++ [decoded_id decoded; user_id user] ∧
  (isUserVerified (user_id user) = inr true →
     nextCalls out.2 = nextCalls w ++ [None; None] ∧
     res out.2 = res w ∧
     req_user out.2 = Some {| id := user_id user; email := user_email user;
                              role := decoded_role decoded;
                              isVerified := true |}) ∧
  (isUserVerified (user_id user) = inr false →
     statusCode (res out.2) = 403 ∧
     body (res out.2) = Some verificationNeededBody ∧
     nextCalls out.2 = nextCalls w ++ [None]).
Proof.
  intros Htok Hne Hv Hf Hu out. subst out.
  rewrite (auth_verified secret req token decoded user w Htok Hne Hv Hf Hu).
  cbn [snd].
  set (w1 := {| res := res w; req_user := _; events := _ |}).
  assert (Hw1 : req_user w1 = Some {| id := user_id user;
                                      email := user_email user;
                                      role := decoded_role decoded;
                                      isVerified := user_isVerified user |})
    by reflexivity.
  assert (Hlog : ∀ l, events w1 ++ l =
                      events w ++ [JwtVerify token secret;
                                   FindById (decoded_id decoded); Next None] ++ l).
  { intros l. subst w1. cbn [events]. now rewrite <- app_assoc. }
  destruct (isUserVerified (user_id user)) as [err|[|]] eqn:Hq.
  - rewrite (gate_lookup_fault req _ err w1 Hw1 Hq). cbn [fst snd].
    repeat split; try discriminate.
    + erewrite newEvents_app by apply Hlog.
      repeat constructor; discriminate.
    + erewrite lookupCalls_app by apply Hlog. reflexivity.
  - rewrite (gate_verified req _ w1 Hw1 Hq). cbn [fst snd res].
    repeat split; try discriminate.
    + erewrite newEvents_app by apply Hlog.
      repeat constructor; discriminate.
    + erewrite lookupCalls_app by apply Hlog. reflexivity.
    + erewrite nextCalls_app by apply Hlog. reflexivity.
  - rewrite (gate_unverified req _ w1 Hw1 Hq). cbn [fst snd].
    repeat split; try discriminate.
    + erewrite newEvents_app by apply Hlog.
      repeat constructor; discriminate.
    + erewrite lookupCalls_app by apply Hlog. reflexivity.
    + erewrite nextCalls_app by apply Hlog. reflexivity.
Qed.

End AuthMiddlewareMore.

(** ** More on the verified-email gate *)

Section RequireVerifiedEmailMore.
Context `{UserRepository}.

(** X9.  When [req.user] is present and the live query says verified, the
    gate calls [next()] once and leaves the response untouched; the
    [isVerified] flag of [req.user] is overwritten with [true] even if it
    was [false], and [id], [email] and [role] stay as they were. *)
Theorem requireVerifiedEmail_passes (req : Request) (user : AuthenticatedUser)
    (w : World) :
  req_user w = Some user →
  isUserVerified (id user) = inr true →
  let out := requireVerifiedEmail req w in
  out.1 = Ok tt ∧
  nextCalls out.2 = nextCalls w ++ [None] ∧
  res out.2 = res w ∧
  lookupCalls out.2 = lookupCalls w ++ [id user] ∧
  ∃ after, req_user out.2 = Some after ∧
           isVerified after = true ∧
           id after = id user ∧ email after = email user ∧
           role after = role user.
Proof.
  intros Hu Hq out. subst out. rewrite (gate_verified req user w Hu Hq).
  cbn [fst snd res req_user]. repeat split.
  - erewrite nextCalls_app by reflexivity. reflexivity.
  - erewrite lookupCalls_app by reflexivity. reflexivity.
  - eexists. split; [reflexivity|]. repeat split.
Qed.

(** X10.  Whatever the repository does, the gate returns normally, never
    calls [res.setHeader], queries the repository at most once and
    ends in exactly one way: one answer with status 401, 403 or 500 that
    leaves [req.user] as it was, or one plain [next()] with the response
    untouched, and that only when [req.user] was present and the live
    query said verified.  It never calls [next(error)]. *)
Theorem requireVerifiedEmail_ends_once (req : Request) (w : World) :
  let out := requireVerifiedEmail req w in
  out.1 = Ok tt ∧
  setHeaderCalls (newEvents w out.2) = [] ∧
  (length (lookupCalls out.2) ≤ S (length (lookupCalls w)))%nat ∧
  ∃ e, endings (newEvents w out.2) = [e] ∧
       match e with
       | Answer payload =>
           (statusCode (res out.2) = 401 ∨ statusCode (res out.2) = 403 ∨
            statusCode (res out.2) = 500) ∧
           body (res out.2) = Some payload ∧
           req_user out.2 = req_user w
       | Continue =>
           res out.2 = res w ∧
           ∃ user, req_user w = Some user ∧
                   isUserVerified (id user) = inr true
       | Fail _ => False
       end.
Proof.
  intros out. subst out.
  destruct (req_user w) as [user|] eqn:Hu.
  - destruct (isUserVerified (id user)) as [err|[|]] eqn:Hq.
    + rewrite (gate_lookup_fault req user err w Hu Hq). cbn [fst snd].
      erewrite newEvents_app, lookupCalls_app by reflexivity.
      rewrite length_app. cbn. repeat split; try lia.
      eexists (Answer _). split; [reflexivity|]. cbn. tauto.
    + rewrite (gate_verified req user w Hu Hq). cbn [fst snd].
      erewrite newEvents_app, lookupCalls_app by reflexivity.
      rewrite length_app. cbn. repeat split; try lia.
      exists Continue. split; [reflexivity|]. split; [reflexivity|].
      now exists user.
    + rewrite (gate_unverified req user w Hu Hq). cbn [fst snd].
      erewrite newEvents_app, lookupCalls_app by reflexivity.
      rewrite length_app. cbn. repeat split; try lia.
      eexists (Answer _). split; [reflexivity|]. cbn. tauto.
  - rewrite (gate_no_user req w Hu). cbn [fst snd].
    erewrite newEvents_app, lookupCalls_app by reflexivity.
    rewrite length_app. cbn. repeat split; try lia.
    eexists (Answer _). split; [reflexivity|]. cbn. tauto.
Qed.

End RequireVerifiedEmailMore.

(** ** The rate limiter in front of the auth middleware *)

Section RateLimitedAuth.
Context `{RateLimitUseCase} `{TokenVerifier} `{UserRepository}.
Variable secret : string.

(** [authMiddleware] leaves the headers set through [res.setHeader] as
    they are. *)
Lemma auth_headers_unchanged (req : Request) (w : World) :
  headers (res (authMiddleware secret req w).2) = headers (res w).
Proof.
  destruct (auth_cases secret req w) as
    [(_ & ->)|(token & _ & _ &
       [(err & _ & ->)|(decoded & _ &
          [(err & _ & ->)|[(_ & ->)|(user & _ &
             [(_ & ->)|(_ & ->)])]])])]; reflexivity.
Qed.

(** [authMiddleware] only ever adds to the log. *)
Lemma auth_events_extend (req : Request) (w : World) :
  ∃ l, events (authMiddleware secret req w).2 = events w ++ l.
Proof.
  destruct (auth_cases secret req w) as
    [(_ & ->)|(token & _ & _ &
       [(err & _ & ->)|(decoded & _ &
          [(err & _ & ->)|[(_ & ->)|(user & _ &
             [(_ & ->)|(_ & ->)])]])])]; eexists; reflexivity.
Qed.

(** X11.  When [authMiddleware] runs on the world an allowing
    [rateLimiter] leaves behind, the response still carries
    [X-RateLimit-Remaining] with the decision's count whichever way the
    authentication ends, so its 401 and 403 answers carry the header as
    well. *)
Theorem auth_after_rateLimiter_keeps_header (req : Request)
    (d : RateLimitDecision) (w : World) :
  checkRateLimit req = inr d →
  allowed d = true →
  let out := authMiddleware secret req (rateLimiter req w).2 in
  headers (res out.2) !! "X-RateLimit-Remaining" = Some (toString (remaining d)) ∧
  ∃ rest, newEvents w out.2 =
            [CheckRateLimit req;
             ConsoleLog [JBool true; JNum (remaining d)];
             SetHeader "X-RateLimit-Remaining" (toString (remaining d));
             Next None] ++ rest.
Proof.
  intros Hd Hallowed out. subst out. split.
  - rewrite auth_headers_unchanged, (rateLimiter_resolved req d w Hd).
    unfold allowOrDeny. rewrite Hallowed. run_handler. simpl_world.
    apply lookup_insert_eq.
  - rewrite (rateLimiter_resolved req d w Hd).
    unfold allowOrDeny. rewrite Hallowed. run_handler. simpl_world.
    flatten_events.
    match goal with |- context [authMiddleware secret req ?w1] =>
      destruct (auth_events_extend req w1) as [rest Hrest] end.
    cbn [events] in Hrest. rewrite <- app_assoc in Hrest.
    exists rest. now apply newEvents_app.
Qed.

End RateLimitedAuth.

(** ** The health check *)

Lemma sent_app w w' l :
  trail w' = trail w ++ l →
  sent w' = sent w ++
            omap (λ e, match e with Respond c h => Some (c, h) | _ => None end) l.
Proof. intros E. unfold sent. rewrite E. apply omap_app. Qed.

Lemma errorLines_app w w' l :
  trail w' = trail w ++ l →
  errorLines w' = errorLines w ++
    omap (λ e, match e with LogError m err => Some (m, err) | _ => None end) l.
Proof. intros E. unfold errorLines. rewrite E. apply omap_app. Qed.

(** Unfold the entry point's programs down to world transformers. *)
Ltac run_index :=
  cbv [healthHandler startServer initializeRedis onListening try_catchI
       mbind I_bind mret I_ret awaitI note dateNow modifyHealth getHealth
       setStatus setService setResponseTime];
  cbn [health reads trail hs_status hs_responseTime hs_services fst snd].

Ltac simpl_index :=
  cbn [health reads trail hs_status hs_responseTime hs_services fst snd
       svc_status svc_responseTime svc_metrics
       String.eqb Ascii.eqb Bool.eqb].

Section HealthCheck.
Context `{Services}.

(** Run [healthHandler] under each outcome of the database query, the
    monitor and the cache ping. *)
Ltac health_cases :=
  destruct queryRaw as [qerr|[]] eqn:Hq;
  destruct getAverageQueryTime as [aerr|avg] eqn:Ha;
  destruct ping as [perr|reply] eqn:Hp;
  run_index; rewrite ?Hq; simpl_index; rewrite ?Ha; simpl_index;
  rewrite ?Hp; simpl_index.

(** X12.  The /health handler always answers, once, with the object it
    built; the code is 200 exactly when the body's [status] is "ok", and
    that is exactly when the database query, the monitor call and the
    cache ping all came back without throwing; otherwise it is 503. *)
Theorem healthHandler_status_code (w : IndexWorld) :
  let out := healthHandler w in
  out.1 = Ok tt ∧
  ∃ code payload,
    sent out.2 = sent w ++ [(code, payload)] ∧
    payload = health out.2 ∧
    (code = 200 ∨ code = 503 ∧ hs_status payload = "unhealthy") ∧
    (code = 200 ↔ hs_status payload = "ok") ∧
    (code = 200 ↔
     ∃ u a reply, queryRaw = inr u ∧ getAverageQueryTime = inr a ∧
                  ping = inr reply).
Proof.
  intros out. subst out. health_cases.
  all: split; [reflexivity|]; eexists _, _.
  all: split; [erewrite sent_app by (rewrite <- ?app_assoc; reflexivity);
               reflexivity|].
  all: split; [reflexivity|]; simpl_index.
  all: split; [first [now left | right; now split]|].
  all: split; split; try discriminate; try reflexivity.
  all: try (intros (u & a & r & ? & ? & ?); discriminate).
  intros _. now exists tt, avg, reply.
Qed.

(** X13.  Both checks always run, whatever the first one did: the body
    always has exactly the entries "database" and "cache".  The database
    entry is the bare [{status: "disconnected"}] exactly when the query or
    the monitor threw, and each check that threw leaves one
    [console.error] line with its error. *)
Theorem healthHandler_always_both_services (w : IndexWorld) :
  let out := healthHandler w in
  let payload := health out.2 in
  dom (hs_services payload) = {["database"; "cache"]} ∧
  RedisPing ∈ drop (length (trail w)) (trail out.2) ∧
  (hs_services payload !! "database" = Some disconnected ↔
   (∃ err, queryRaw = inl err) ∨ (∃ err, getAverageQueryTime = inl err)) ∧
  (hs_services payload !! "cache" = Some disconnected ↔ ∃ err, ping = inl err) ∧
  errorLines out.2 =
    errorLines w
    ++ match queryRaw, getAverageQueryTime with
       | inl err, _ | inr _, inl err => [("Database connection failed:", err)]
       | inr _, inr _ => []
       end
    ++ match ping with
       | inl err => [("Redis connection failed:", err)]
       | inr _ => []
       end.
Proof.
  intros out payload. subst payload out. health_cases.
  all: split; [rewrite !dom_insert_L, dom_empty_L; set_solver|].
  all: split; [rewrite <- ?app_assoc, drop_app_length; repeat constructor|].
  all: rewrite lookup_insert_ne by discriminate.
  all: rewrite !lookup_insert_eq.
  all: split; [split; [intros Hd; try discriminate Hd; eauto
                      |intros [[e He]|[e He]]; try discriminate He;
                       reflexivity]|].
  all: split; [split; [intros Hc; try discriminate Hc; eauto
                      |intros [e He]; try discriminate He; reflexivity]|].
  all: erewrite errorLines_app by (rewrite <- ?app_assoc; reflexivity);
       reflexivity.
Qed.

(** X14.  A cache that answers the ping with anything but "PONG" is
    reported as "disconnected" in its entry, response time included, yet
    the overall status stays "ok" and the code 200 as long as nothing
    threw. *)
Theorem healthHandler_ping_not_pong (w : IndexWorld) (u : unit) (a : Json)
    (reply : string) :
  queryRaw = inr u → getAverageQueryTime = inr a → ping = inr reply →
  reply ≠ "PONG" →
  let out := healthHandler w in
  ∃ payload cache,
    sent out.2 = sent w ++ [(200, payload)] ∧
    hs_status payload = "ok" ∧
    hs_services payload !! "cache" = Some cache ∧
    svc_status cache = "disconnected" ∧
    is_Some (svc_responseTime cache) ∧
    errorLines out.2 = errorLines w.
Proof.
  intros Hq Ha Hp Hreply out. subst out.
  run_index. rewrite Hq. simpl_index. rewrite Ha. simpl_index.
  rewrite Hp. simpl_index.
  eexists _, _.
  split; [erewrite sent_app by (rewrite <- ?app_assoc; reflexivity);
          reflexivity|].
  split; [reflexivity|]. split; [apply lookup_insert_eq|]. simpl_index.
  split; [|split; [eexists; reflexivity|]].
  - destruct (String.eqb reply "PONG") eqn:Heq; [|reflexivity].
    apply String.eqb_eq in Heq. contradiction.
  - erewrite errorLines_app by (rewrite <- ?app_assoc; reflexivity).
    cbn. apply app_nil_r.
Qed.

(** X15.  On a clock that never runs backwards, the total response time
    reported is not negative and every service time reported lies between
    zero and the total. *)
Theorem healthHandler_times (w : IndexWorld) :
  (∀ i j, (i ≤ j)%nat → (now i ≤ now j)%Z) →
  let payload := health (healthHandler w).2 in
  ∃ total,
    hs_responseTime payload = Some (toString total +:+ "ms") ∧
    (0 ≤ total)%Z ∧
    ∀ name svc, hs_services payload !! name = Some svc →
      svc_responseTime svc = None ∨
      ∃ t, svc_responseTime svc = Some (toString t +:+ "ms") ∧ (0 ≤ t ≤ total)%Z.
Proof.
  intros Hmono payload. subst payload.
  pose proof (Hmono (reads w) (S (reads w)) ltac:(lia)) as H0.
  pose proof (Hmono (S (reads w)) (S (S (reads w))) ltac:(lia)) as H1.
  pose proof (Hmono (S (S (reads w))) (S (S (S (reads w)))) ltac:(lia)) as H2.
  pose proof (Hmono (S (S (S (reads w)))) (S (S (S (S (reads w)))))
                ltac:(lia)) as H3.
  pose proof (Hmono (S (S (S (S (reads w))))) (S (S (S (S (S (reads w))))))
                ltac:(lia)) as H4.
  health_cases.
  all: eexists; split; [reflexivity|].
  all: split; [lia|].
  all: intros name svc Hsvc.
  all: apply lookup_insert_Some in Hsvc as [[_ <-]|[_ Hsvc]];
       [|apply lookup_insert_Some in Hsvc as [[_ <-]|[_ Hsvc]];
         [|now rewrite lookup_empty in Hsvc]].
  all: simpl_index; try (now left); right; eexists; (split; [reflexivity|]).
  all: lia.
Qed.

End HealthCheck.

(** ** Start-up *)

Section StartUp.
Context `{Services}.

(** X16.  [initializeRedis] never rejects: a failed connection is logged
    and swallowed, a successful one is logged, and in both cases the
    promise resolves after exactly one connection attempt. *)
Theorem initializeRedis_never_rejects (w : IndexWorld) :
  let out := initializeRedis w in
  out.1 = Ok tt ∧
  health out.2 = health w ∧
  trail out.2 =
    trail w ++
    [RedisConnect;
     match redisConnect with
     | inr _ => Log "Redis connected successfully!"
     | inl err => LogError "Error during Redis initialization:" err
     end].
Proof.
  intros out. subst out. run_index.
  destruct redisConnect as [err|u]; simpl_index; rewrite <- ?app_assoc;
    repeat split.
Qed.

(** Run [startServer] under each outcome of its collaborators. *)
Ltac start_cases :=
  destruct prismaConnect as [dberr|[]] eqn:Hdb;
  destruct redisConnect as [rerr|[]] eqn:Hredis;
  destruct initCronJobs as [cerr|[]] eqn:Hcron;
  destruct listen as [lerr|[]] eqn:Hlisten;
  run_index; rewrite ?Hdb; simpl_index; rewrite ?Hredis; simpl_index;
  rewrite ?Hcron; simpl_index; rewrite ?Hlisten; simpl_index.

(** X17.  [startServer] never rejects.  [app.listen] is reached exactly
    when the database connected and the cron jobs were set up, whether or
    not Redis connected.  The error lines are: the database line alone if
    the database failed; otherwise the Redis line if Redis failed, and the
    "Server failed to start due to Redis initialization error:" line if
    the cron set-up or [app.listen] threw, carrying that error. *)
Theorem startServer_listens (port env : string) (w : IndexWorld) :
  let out := startServer port env w in
  out.1 = Ok tt ∧
  (Listen port ∈ drop (length (trail w)) (trail out.2) ↔
   (∃ u, prismaConnect = inr u) ∧ (∃ u, initCronJobs = inr u)) ∧
  errorLines out.2 =
    errorLines w ++
    match prismaConnect with
    | inl err => [("Error during database initialization:", err)]
    | inr _ =>
        match redisConnect with
        | inl err => [("Error during Redis initialization:", err)]
        | inr _ => []
        end
        ++ match initCronJobs, listen with
           | inl err, _ | inr _, inl err =>
               [("Server failed to start due to Redis initialization error:",
                 err)]
           | inr _, inr _ => []
           end
    end.
Proof.
  intros out. subst out. start_cases.
  all: split; [destruct (String.eqb env "development"); reflexivity|].
  all: split; [|destruct (String.eqb env "development"); simpl_index;
                erewrite errorLines_app by (rewrite <- ?app_assoc; reflexivity);
                reflexivity].
  all: destruct (String.eqb env "development"); simpl_index;
       rewrite <- ?app_assoc, drop_app_length.
  all: split; [intros Hin|intros [[u Hu] [u' Hu']]; try discriminate;
                            repeat constructor].
  all: try (split; eexists; reflexivity).
  all: exfalso;
       repeat (apply elem_of_cons in Hin as [Hin|Hin]; [discriminate Hin|]);
       exact (proj1 (elem_of_nil _) Hin).
Qed.

(** X18.  With the database, the cron jobs and [app.listen] fine but
    Redis unreachable, the server still starts listening: the Redis error
    is logged by [initializeRedis] and nothing else is reported. *)
Theorem startServer_without_redis (port env : string) (w : IndexWorld)
    (err : Thrown) :
  prismaConnect = inr tt → redisConnect = inl err →
  initCronJobs = inr tt → listen = inr tt →
  let out := startServer port env w in
  trail out.2 =
    trail w ++
    [PrismaConnect; Log "Database connected successfully!";
     RedisConnect; LogError "Error during Redis initialization:" err;
     InitCronJobs; Listen port;
     Log ("Server is running on http://localhost:" +:+ port)]
    ++ (if String.eqb env "development"
        then [Log ("📚 Swagger docs available at http://localhost:" +:+ port
                     +:+ "/api/docs")]
        else []) ∧
  errorLines out.2 =
    errorLines w ++ [("Error during Redis initialization:", err)].
Proof.
  intros Hdb Hredis Hcron Hlisten out. subst out.
  run_index. rewrite Hdb. simpl_index. rewrite Hredis. simpl_index.
  rewrite Hcron. simpl_index. rewrite Hlisten. simpl_index.
  destruct (String.eqb env "development"); simpl_index; rewrite <- ?app_assoc;
    (split; [reflexivity|]);
    (erewrite errorLines_app by (rewrite <- ?app_assoc; reflexivity));
    reflexivity.
Qed.

(** X19.  If the database connection fails, nothing else is attempted:
    Redis is not contacted, no cron job is set up, the server does not
    listen; one error line is logged and the chain settles. *)
Theorem startServer_database_down (port env : string) (w : IndexWorld)
    (err : Thrown) :
  prismaConnect = inl err →
  startServer port env w =
  (Ok tt,
   {| health := health w; reads := reads w;
      trail := trail w ++
               [PrismaConnect;
                LogError "Error during database initialization:" err] |}).
Proof.
  intros Hdb. run_index. rewrite Hdb. simpl_index.
  now rewrite <- app_assoc.
Qed.

End StartUp.

(** X20.  Development is the default environment: [ENV] is "development"
    exactly when [NODE_ENV] is unset, empty or "development", and exactly
    then the listening callback prints the Swagger line after the
    "Server is running" line; [PORT] falls back to 3000 in the same way. *)
Theorem development_is_the_default (env_NODE_ENV env_PORT : option string)
    (w : IndexWorld) :
  let dev := env_NODE_ENV = None ∨ env_NODE_ENV = Some ""
             ∨ env_NODE_ENV = Some "development" in
  let port := PORT env_PORT in
  let out := onListening port (ENV env_NODE_ENV) w in
  (ENV env_NODE_ENV = "development" ↔ dev) ∧
  (dev →
   trail out.2 =
     trail w ++
     [Log ("Server is running on http://localhost:" +:+ port);
      Log ("📚 Swagger docs available at http://localhost:" +:+ port
             +:+ "/api/docs")]) ∧
  (¬ dev →
   trail out.2 =
     trail w ++ [Log ("Server is running on http://localhost:" +:+ port)]) ∧
  (env_PORT = None ∨ env_PORT = Some "" → port = "3000") ∧
  (∀ p, env_PORT = Some p → p ≠ "" → port = p).
Proof.
  intros dev port out. subst dev port out.
  assert (Henv : ENV env_NODE_ENV = "development" ↔
                 env_NODE_ENV = None ∨ env_NODE_ENV = Some ""
                 ∨ env_NODE_ENV = Some "development").
  { destruct env_NODE_ENV as [[|c s]|]; cbn.
    - split; [now right; left | reflexivity].
    - split; [intros ->; now right; right | intros [?|[?|?]]; congruence].
    - split; [now left | reflexivity]. }
  split; [exact Henv|]. split; [|split; [|split]].
  - intros Hdev. apply Henv in Hdev. run_index. rewrite Hdev. simpl_index.
    now rewrite <- app_assoc.
  - intros Hndev. run_index.
    destruct (String.eqb (ENV env_NODE_ENV) "development") eqn:Heq.
    + apply String.eqb_eq in Heq. apply Henv in Heq. contradiction.
    + reflexivity.
  - intros [->| ->]; reflexivity.
  - intros p -> Hp. destruct p; [contradiction|reflexivity].
Qed.

(** ** The extracted token *)

Lemma upTo_has_no_sep sep s : afterFirst sep (upTo sep s) = None.
Proof.
  induction s as [|c s IH]; cbn; [reflexivity|].
  destruct (Ascii.eqb c sep) eqn:Hc; cbn; [reflexivity|]. now rewrite Hc.
Qed.

(** X21.  Token extraction round trip: from a header made of a scheme
    word, one space and a token, neither containing a space, exactly the
    token comes back; and whatever comes back from any request contains no
    space and was preceded by a space in the header. *)
Theorem extractToken_round_trip (req : Request) :
  (∀ scheme token,
     authorization req = Some (scheme +:+ String " " token) →
     afterFirst " " scheme = None → afterFirst " " token = None →
     extractToken req = Some token) ∧
  (∀ token,
     extractToken req = Some token →
     afterFirst " " token = None ∧
     ∃ h rest, authorization req = Some h ∧
               afterFirst " " h = Some rest ∧ token = upTo " " rest).
Proof.
  split.
  - intros scheme token Hh Hscheme Htoken. unfold extractToken.
    rewrite Hh, split_second, (afterFirst_app " " scheme token Hscheme). cbn.
    now rewrite (upTo_no_sep " " token Htoken).
  - intros token Htok. unfold extractToken in Htok.
    destruct (authorization req) as [h|]; [|discriminate].
    rewrite split_second in Htok.
    destruct (afterFirst " " h) as [rest|] eqn:Hrest; [|discriminate].
    cbn in Htok. inversion Htok; subst token. split.
    + apply upTo_has_no_sep.
    + now exists h, rest.
Qed.

(** ** The further theorems at concrete inputs *)

Module ExtraWitness.
Import Scenario IndexScenario.

Lemma rateLimiter_allowed_witness :
  let out := @rateLimiter (engine (inr allowedDecision)) (request None)
               (initialWorld None) in
  nextCalls out.2 = [None] ∧ statusCode (res out.2) = 200 ∧
  body (res out.2) = None.
Proof.
  pose proof (@rateLimiter_allowed (engine (inr allowedDecision)) (request None)
                allowedDecision (initialWorld None) eq_refl eq_refl)
    as (_ & Hn & Hs & Hb & _).
  split; [exact Hn|]. split; [exact Hs | exact Hb].
Defined.

Lemma requireVerifiedEmail_passes_witness :
  let out := @requireVerifiedEmail (repoWith None true) (request None)
               (initialWorld (Some (cachedUser false))) in
  nextCalls out.2 = [None] ∧
  ∃ after, req_user out.2 = Some after ∧ isVerified after = true ∧
           id after = "u1" ∧ email after = "u1@example.org" ∧
           role after = "admin".
Proof.
  pose proof (@requireVerifiedEmail_passes (repoWith None true) (request None)
                (cachedUser false) (initialWorld (Some (cachedUser false)))
                eq_refl eq_refl) as (_ & Hn & _ & _ & Hu).
  split; [exact Hn | exact Hu].
Defined.

(** The record says verified, the live query a moment later says no. *)
Lemma gate_after_auth_witness :
  let repo := repoWith (Some (volunteer true)) false in
  let out := @requireVerifiedEmail repo (request (Some "Bearer good"))
               (@authMiddleware verifier repo "defaultSecret"
                  (request (Some "Bearer good")) (initialWorld None)).2 in
  lookupCalls out.2 = ["u1"; "u1"] ∧
  statusCode (res out.2) = 403 ∧
  nextCalls out.2 = [None].
Proof.
  pose proof (@gate_after_auth verifier
                (repoWith (Some (volunteer true)) false) "defaultSecret"
                (request (Some "Bearer good")) "good" adminClaim
                (volunteer true) (initialWorld None)
                eq_refl ltac:(discriminate) eq_refl eq_refl eq_refl)
    as (_ & Hl & _ & Hunv).
  destruct (Hunv eq_refl) as (Hs & _ & Hn).
  split; [exact Hl|]. split; [exact Hs | exact Hn].
Defined.

(** An allowed request without credentials: the 401 carries the header. *)
Lemma auth_after_rateLimiter_keeps_header_witness :
  let out := @authMiddleware verifier (repoWith None true) "defaultSecret"
               (request None)
               (@rateLimiter (engine (inr allowedDecision)) (request None)
                  (initialWorld None)).2 in
  headers (res out.2) !! "X-RateLimit-Remaining" = Some "4".
Proof.
  exact (proj1 (@auth_after_rateLimiter_keeps_header
                  (engine (inr allowedDecision)) verifier (repoWith None true)
                  "defaultSecret" (request None) allowedDecision
                  (initialWorld None) eq_refl eq_refl)).
Defined.

Lemma healthHandler_ping_not_pong_witness :
  ∃ payload cache,
    sent (@healthHandler oddCache freshIndexWorld).2 = [(200, payload)] ∧
    hs_status payload = "ok" ∧
    hs_services payload !! "cache" = Some cache ∧
    svc_status cache = "disconnected".
Proof.
  destruct (@healthHandler_ping_not_pong oddCache freshIndexWorld tt (JNum 3)
              "LOADING" eq_refl eq_refl eq_refl ltac:(discriminate))
    as (payload & cache & Hs & Hok & Hc & Hd & _).
  exists payload, cache. repeat split; assumption.
Defined.

Lemma healthHandler_times_witness :
  ∃ total,
    hs_responseTime (health (@healthHandler oddCache freshIndexWorld).2)
      = Some (toString total +:+ "ms") ∧ (0 ≤ total)%Z.
Proof.
  destruct (@healthHandler_times oddCache freshIndexWorld
              ltac:(intros i j Hij; cbn; lia)) as (total & Ht & Hpos & _).
  exists total. split; assumption.
Defined.

Lemma startServer_without_redis_witness :
  errorLines (@startServer oddCache (PORT None) (ENV None) freshIndexWorld).2
  = [("Error during Redis initialization:", redisRefused)].
Proof.
  exact (proj2 (@startServer_without_redis oddCache (PORT None) (ENV None)
                  freshIndexWorld redisRefused
                  eq_refl eq_refl eq_refl eq_refl)).
Defined.

Lemma startServer_database_down_witness :
  trail (@startServer databaseDown (PORT None) (ENV None) freshIndexWorld).2
  = [PrismaConnect;
     LogError "Error during database initialization:" dbDown].
Proof.
  exact (f_equal (λ o, trail o.2)
           (@startServer_database_down databaseDown (PORT None) (ENV None)
              freshIndexWorld dbDown eq_refl)).
Defined.

Lemma extractToken_round_trip_witness :
  extractToken (request (Some "Bearer good")) = Some "good" ∧
  afterFirst " " "good" = None.
Proof.
  destruct (extractToken_round_trip (request (Some "Bearer good")))
    as (Hthere & Hback).
  split.
  - exact (Hthere "Bearer" "good" eq_refl eq_refl eq_refl).
  - exact (proj1 (Hback "good" eq_refl)).
Defined.

End ExtraWitness.
